(** * OPC UA demo server: value generators, mirror handler and GPS feed

    A shallow embedding of [src/main.py].  The asyncio coroutines are
    modelled as computations in a small trace-and-exception monad: the
    calls a coroutine awaits on the external server ([write_value],
    [write_attribute_value], [asyncio.sleep], [logger.error]) are recorded
    as events, and a Python exception stops the computation.  The
    [while True] loops are unrolled a given number of iterations; the
    infinite behaviour is the limit of these prefixes.

    Python numbers are modelled exactly: [int] as [Z], [float] as IEEE 754
    binary64 through the Standard Library's executable [SpecFloat]. *)

From Stdlib Require Import ZArith Lia SpecFloat.
From stdpp Require Import gmap strings list pretty.

(* ================================================================== *)
(** * Part I: definitions                                              *)
(* ================================================================== *)

(** ** Python numbers *)

Module Py.

(** binary64: 53 bits of precision, infinities at exponent 1024. *)
Definition prec : Z := 53.
Definition emax : Z := 1024.

Definition fadd := SFadd prec emax.
Definition fsub := SFsub prec emax.
Definition fdiv := SFdiv prec emax.
Definition fcompare := SFcompare.

(** The double nearest to an integer (ties to even); an infinity when
    the integer is out of range. *)
Definition Z2F (z : Z) : spec_float := binary_normalize prec emax z 0 false.

Definition is_zero (f : spec_float) : bool :=
  match f with S754_zero _ => true | _ => false end.

Definition is_nan (f : spec_float) : bool :=
  match f with S754_nan => true | _ => false end.

(** Zero or finite: neither an infinity nor a NaN. *)
Definition is_finite (f : spec_float) : bool :=
  match f with S754_zero _ | S754_finite _ _ _ => true | _ => false end.

(** The exceptions met here; [BadTypeMismatch] is the status with which
    the server refuses a write ([ua.UaStatusCodeError]). *)
Inductive exn := ZeroDivisionError | OverflowError | BadTypeMismatch.

Inductive result (A : Type) :=
| Ok (a : A)
| Raise (e : exn).
Arguments Ok {A} a.
Arguments Raise {A} e.

Definition rbind {A B} (r : result A) (k : A -> result B) : result B :=
  match r with
  | Ok a => k a
  | Raise e => Raise e
  end.

(** A float result that left the finite range raises [OverflowError]
    (int-to-float conversion, int/int true division, [round]). *)
Definition checked (f : spec_float) : result spec_float :=
  if is_finite f then Ok f else Raise OverflowError.

(** The correctly rounded quotient of two positive integers of any
    size, with the sign [s]. *)
Definition ratio_to_float (s : bool) (a b : positive) : spec_float :=
  let '(q, e, l) := SFdiv_core_binary prec emax (Zpos a) 0 (Zpos b) 0 in
  binary_round_aux prec emax s q e l.

(** [a / b] on Python ints: the correctly rounded quotient, [-0.0] or
    [0.0] when the numerator is zero or the quotient underflows. *)
Definition int_truediv (a b : Z) : result spec_float :=
  let s := xorb (a <? 0)%Z (b <? 0)%Z in
  match b, a with
  | Z0, _ => Raise ZeroDivisionError
  | _, Z0 => Ok (S754_zero s)
  | _, _ => checked (ratio_to_float s (Z.to_pos (Z.abs a)) (Z.to_pos (Z.abs b)))
  end.

(** A Python number: [int] or [float]. *)
Inductive pynum :=
| PInt (z : Z)
| PFloat (f : spec_float).

(** [float(x)], also the implicit conversion of mixed arithmetic. *)
Definition to_float (x : pynum) : result spec_float :=
  match x with
  | PInt z => checked (Z2F z)
  | PFloat f => Ok f
  end.

Definition py_add (x y : pynum) : result pynum :=
  match x, y with
  | PInt a, PInt b => Ok (PInt (a + b))
  | _, _ =>
      rbind (to_float x) (fun a =>
      rbind (to_float y) (fun b => Ok (PFloat (fadd a b))))
  end.

Definition py_sub (x y : pynum) : result pynum :=
  match x, y with
  | PInt a, PInt b => Ok (PInt (a - b))
  | _, _ =>
      rbind (to_float x) (fun a =>
      rbind (to_float y) (fun b => Ok (PFloat (fsub a b))))
  end.

(** [x / y]: true division. *)
Definition py_truediv (x y : pynum) : result pynum :=
  match x, y with
  | PInt a, PInt b => rbind (int_truediv a b) (fun q => Ok (PFloat q))
  | _, _ =>
      rbind (to_float x) (fun a =>
      rbind (to_float y) (fun b =>
        if is_zero b then Raise ZeroDivisionError
        else Ok (PFloat (fdiv a b))))
  end.

(** Exact comparison of an integer with a float (Python compares
    mixed operands by value, without rounding the integer). *)
Definition compare_int_float (z : Z) (f : spec_float) : option comparison :=
  match f with
  | S754_nan => None
  | S754_infinity s => Some (if s then Gt else Lt)
  | S754_zero _ => Some (z ?= 0)%Z
  | S754_finite s m (Zneg p) =>
      Some (z * Z.pow_pos 2 p ?= cond_Zopp s (Zpos m))%Z
  | S754_finite s m e =>
      Some (z ?= cond_Zopp s (Zpos m) * 2 ^ e)%Z
  end.

Definition py_compare (x y : pynum) : option comparison :=
  match x, y with
  | PInt a, PInt b => Some (a ?= b)%Z
  | PInt a, PFloat g => compare_int_float a g
  | PFloat f, PInt b => option_map CompOpp (compare_int_float b f)
  | PFloat f, PFloat g => fcompare f g
  end.

(** [x <= y] and [x >= y]; false when a NaN is involved. *)
Definition py_le (x y : pynum) : bool :=
  match py_compare x y with
  | Some Lt | Some Eq => true
  | _ => false
  end.

Definition py_ge (x y : pynum) : bool :=
  match py_compare x y with
  | Some Gt | Some Eq => true
  | _ => false
  end.

Definition py_lt (x y : pynum) : bool :=
  match py_compare x y with
  | Some Lt => true
  | _ => false
  end.

(** The integer nearest to [a / b] for [a >= 0], ties to even. *)
Definition div_half_even (a : Z) (b : positive) : Z :=
  let q := (a / Zpos b)%Z in
  match (2 * (a mod Zpos b) ?= Zpos b)%Z with
  | Lt => q
  | Gt => (q + 1)%Z
  | Eq => if Z.even q then q else (q + 1)%Z
  end.

(** The integer nearest to [100 * m * 2^e], ties to even. *)
Definition hundredths (m : positive) (e : Z) : Z :=
  match e with
  | Zneg p => div_half_even (100 * Zpos m) (Pos.pow 2 p)
  | _ => (100 * Zpos m * 2 ^ e)%Z
  end.

(** The double that the decimal [k / 100] denotes, with sign [s]. *)
Definition dec2 (s : bool) (k : Z) : spec_float :=
  match k with
  | Zpos p => ratio_to_float s p 100
  | _ => S754_zero s
  end.

(** [round(x, 2)] on a float: the value is rounded to the nearest
    multiple of 0.01 (exact ties to even) and that decimal is read back
    as a double; infinities and NaN round to themselves. *)
Definition round2 (x : spec_float) : result spec_float :=
  match x with
  | S754_finite s m e => checked (dec2 s (hundredths m e))
  | _ => Ok x
  end.

(** Any Python value the handlers may be handed or may write. *)
Inductive pyval :=
| VNone
| VBool (b : bool)
| VNum (x : pynum)
| VStr (s : string).

(** Truth value, as tested by [if], [and] and [not]. *)
Definition truthy (v : pyval) : bool :=
  match v with
  | VNone => false
  | VBool b => b
  | VNum (PInt z) => negb (z =? 0)%Z
  | VNum (PFloat f) => negb (is_zero f)
  | VStr s => negb (String.eqb s "")
  end.

(** [isinstance(v, bool)] *)
Definition is_bool (v : pyval) : bool :=
  match v with VBool _ => true | _ => false end.

End Py.

Export Py.

(** ** Effects: traces of server calls, and exceptions *)

(** An asyncua [Node]; two nodes are equal when their node ids are. *)
Record Node := { nodeid : Z }.

Definition node_eqb (a b : Node) : bool := (nodeid a =? nodeid b)%Z.

(** The calls a coroutine awaits or issues, in program order. *)
Inductive event :=
| WriteValue (target : Node) (v : pyval)       (* data.write_value(v) *)
| WriteAttributeValue (id : Z) (v : pyval)     (* server.write_attribute_value(id, ua.DataValue(v)) *)
| Sleep (delay : pynum)                        (* asyncio.sleep(delay) *)
| LogError (msg : string).                     (* logger.error(msg) *)

(** The variable a call writes to, if it is a write. *)
Definition write_target (ev : event) : option Z :=
  match ev with
  | WriteValue target _ => Some (nodeid target)
  | WriteAttributeValue id _ => Some id
  | _ => None
  end.

(** The values a trace writes to the variable [id], oldest first. *)
Fixpoint written (id : Z) (t : list event) : list pyval :=
  match t with
  | [] => []
  | WriteValue target v :: t' =>
      if (nodeid target =? id)%Z then v :: written id t' else written id t'
  | WriteAttributeValue id' v :: t' =>
      if (id' =? id)%Z then v :: written id t' else written id t'
  | _ :: t' => written id t'
  end.

Definition logged (t : list event) : list string :=
  omap (fun ev => match ev with LogError msg => Some msg | _ => None end) t.

Module Eff.

(** A computation: the events issued so far, and either a value or the
    exception that stopped it. *)
Definition M (A : Type) : Type := (list event * result A)%type.

Definition ret {A} (a : A) : M A := ([], Ok a).

Definition bind {A B} (m : M A) (k : A -> M B) : M B :=
  match m with
  | (t, Ok a) => let '(t', r) := k a in (t ++ t', r)
  | (t, Raise e) => (t, Raise e)
  end.

Definition emit (ev : event) : M unit := ([ev], Ok tt).

Definition lift {A} (r : result A) : M A := ([], r).

Definition trace {A} (m : M A) : list event := fst m.
Definition outcome {A} (m : M A) : result A := snd m.

(** [n] iterations of [while True: s = body(s)], stopped early by an
    exception. *)
Fixpoint loop {S} (body : S -> M S) (n : nat) (s : S) : M S :=
  match n with
  | O => ret s
  | S n' => bind (body s) (loop body n')
  end.

End Eff.

Import Eff.

Declare Scope eff_scope.
Delimit Scope eff_scope with eff.
Notation "x <- m ;; k" := (bind m (fun x => k))
  (at level 100, m at next level, right associativity) : eff_scope.
Notation "m ;;; k" := (bind m (fun _ => k))
  (at level 100, right associativity) : eff_scope.
Local Open Scope eff_scope.

(** ** The value generators *)

(** [toggle_data(data, refresh, init)], first [n] iterations. *)
Definition toggle_body (data : Node) (refresh : pynum) (value : pyval) : M pyval :=
  emit (WriteValue data value) ;;;
  emit (Sleep refresh) ;;;
  ret (VBool (negb (truthy value))).

Definition toggle_data (data : Node) (refresh : pynum) (init : pyval) (n : nat) : M pyval :=
  loop (toggle_body data refresh) n init.

(** [periodic_data(data, refresh, init, increment)] *)
Definition periodic_body (data : Node) (refresh increment value : pynum) : M pynum :=
  emit (WriteValue data (VNum value)) ;;;
  emit (Sleep refresh) ;;;
  lift (py_add value increment).

Definition periodic_data (data : Node) (refresh init increment : pynum) (n : nat) : M pynum :=
  loop (periodic_body data refresh increment) n init.

(** [random_data(data, refresh, init, min, max)].  The generator is run
    against an oracle for the random module: [uniform k a b] is what the
    [k]-th call, [random.uniform(a, b)], returns.  The loop state is the
    current value and the number of draws made. *)
Definition random_body (uniform : nat -> pynum -> pynum -> spec_float)
    (data : Node) (refresh min max : pynum) (st : pyval * nat) : M (pyval * nat) :=
  let '(value, k) := st in
  emit (WriteValue data value) ;;;
  emit (Sleep refresh) ;;;
  r <- lift (round2 (uniform k min max)) ;;
  ret (VNum (PFloat r), S k).

Definition random_data (uniform : nat -> pynum -> pynum -> spec_float)
    (data : Node) (refresh : pynum) (init : pyval) (min max : pynum)
    (n : nat) : M (pyval * nat) :=
  loop (random_body uniform data refresh min max) n (init, O).

(** [cyclic_data(data, cycle_time, step, init, min, max)].  The three
    lines before the loop compute the sleep interval. *)
Definition cyclic_refresh (cycle_time step min max : pynum) : result pynum :=
  rbind (py_sub max min) (fun interval =>
  rbind (py_truediv interval step) (fun spi =>
  py_truediv cycle_time spi)).

(** The direction flag after the two tests of an iteration. *)
Definition cyclic_direction (min max value : pynum) (increasing : bool) : bool :=
  let increasing := if py_ge value max then false else increasing in
  if py_le value min then true else increasing.

Definition cyclic_advance (step min max : pynum) (st : pynum * bool) : result (pynum * bool) :=
  let '(value, increasing) := st in
  let increasing := cyclic_direction min max value increasing in
  rbind (if increasing then py_add value step else py_sub value step)
        (fun value' => Ok (value', increasing)).

Definition cyclic_body (data : Node) (refresh step min max : pynum)
    (st : pynum * bool) : M (pynum * bool) :=
  d <- lift (to_float (fst st)) ;;   (* ua.Double(value) *)
  emit (WriteValue data (VNum (PFloat d))) ;;;
  emit (Sleep refresh) ;;;
  lift (cyclic_advance step min max st).

Definition cyclic_data (data : Node) (cycle_time step init min max : pynum)
    (n : nat) : M (pynum * bool) :=
  refresh <- lift (cyclic_refresh cycle_time step min max) ;;
  loop (cyclic_body data refresh step min max) n (init, true).

(** ** The mirror handler *)

Record MirrorHandler := {
  orig_data : Node;
  copy_data : Node
}.

(** [MirrorHandler.datachange_notification(self, node, val, data)]; the
    third argument of the callback is not used. *)
Definition datachange_notification (self : MirrorHandler) (node : Node) (val : pyval) : M unit :=
  if node_eqb (orig_data self) node then
    if negb (is_bool val) then
      emit (LogError "Node value is not boolean")
    else
      emit (WriteAttributeValue (nodeid (copy_data self)) val)
  else ret tt.

(** ** The GPS feed handler *)

Record TCXUpdateHandler := {
  filepath : string;
  lat_data : Node;
  long_data : Node;
  lat_long_data : Node
}.

Section Feed.

(** [repr] of a float (the shortest decimal that reads back as the
    same double) is left to the Python runtime. *)
Variable float_repr : spec_float -> string.

(** [str(v)], as [str.format] renders a [{}] field. *)
Definition py_str (v : pyval) : string :=
  match v with
  | VNone => "None"
  | VBool true => "True"
  | VBool false => "False"
  | VNum (PInt z) => pretty z
  | VNum (PFloat f) => float_repr f
  | VStr s => s
  end.

(** [dict.get(key)]: [None] when the key is absent. *)
Definition dict_get (d : gmap string pyval) (key : string) : pyval :=
  default VNone (d !! key).

(** The server's verdict on a write: it accepts a value of the type the
    variable holds, and refuses any other with [BadTypeMismatch].  The
    type a variable holds never changes (a refused write leaves it as it
    is), so the verdict depends on the node and the value only. *)
Variable accepts : Node -> pyval -> bool.

(** [await node.write_value(v)]: the write happens, or the refusal is
    raised in the caller. *)
Definition write_value (node : Node) (v : pyval) : M unit :=
  if accepts node v then emit (WriteValue node v) else lift (Raise BadTypeMismatch).

(** [if c: await node.write_value(v)] *)
Definition write_if (c : bool) (node : Node) (v : pyval) : M unit :=
  if c then write_value node v else ret tt.

(** [TCXUpdateHandler.on_update(self, position)] *)
Definition on_update (self : TCXUpdateHandler) (position : gmap string pyval) : M unit :=
  let lat := dict_get position "latitude" in
  let long := dict_get position "longitude" in
  let lat_long := "lat=" +:+ py_str lat +:+ ",long=" +:+ py_str long in
  write_if (truthy lat) (lat_data self) lat ;;;
  write_if (truthy long) (long_data self) long ;;;
  write_if (truthy long && truthy lat) (lat_long_data self) (VStr lat_long).

(** Modelled from the spec: the track reader [TCXHandler] of
    [tcx_handler.py]; its [start] invokes the registered callback once
    for every record of the track, in order. *)
Fixpoint tcx_start (callback : gmap string pyval -> M unit)
    (track : list (gmap string pyval)) : M unit :=
  match track with
  | [] => ret tt
  | position :: rest => callback position ;;; tcx_start callback rest
  end.

(** [TCXUpdateHandler.start(self)], on a given track. *)
Definition tcx_update_start (self : TCXUpdateHandler)
    (track : list (gmap string pyval)) : M unit :=
  tcx_start (on_update self) track.

End Feed.

(** ** Start-up: the address space and the tasks of [main] *)

(** The members of [ua.ObjectIds] that [main] names as data types. *)
Inductive ObjectIds := Boolean | Double | String.

(** The requests [main] sends to the server while it sets up. *)
Inductive request :=
| AddVariable (idx : Z) (name : string) (val : pyval) (datatype : ObjectIds) (created : Node)
| HistorizeNodeDataChange (node : Node) (period : option Z) (count : Z).

(** The server as [main] sees it: the id the next node gets, and the
    requests received so far (oldest first).  Node ids are handed out in
    sequence, so every created node gets an id of its own. *)
Record server := {
  next_id : Z;
  requests : list request
}.

Module Srv.

Definition St (A : Type) : Type := server -> A * server.

Definition ret {A} (a : A) : St A := fun s => (a, s).

Definition bind {A B} (m : St A) (k : A -> St B) : St B :=
  fun s => let '(a, s') := m s in k a s'.

(** [plc_server.add_variable(idx, name, val, datatype=ua.NodeId(datatype, 0))] *)
Definition add_variable (idx : Z) (name : string) (val : pyval) (datatype : ObjectIds) : St Node :=
  fun s =>
    let node := {| nodeid := next_id s |} in
    (node, {| next_id := next_id s + 1;
              requests := requests s ++ [AddVariable idx name val datatype node] |}).

(** [server.historize_node_data_change(node, period=period, count=count)] *)
Definition historize_node_data_change (node : Node) (period : option Z) (count : Z) : St unit :=
  fun s =>
    (tt, {| next_id := next_id s;
            requests := requests s ++ [HistorizeNodeDataChange node period count] |}).

End Srv.

Declare Scope srv_scope.
Delimit Scope srv_scope with srv.
Notation "x <- m ;; k" := (Srv.bind m (fun x => k))
  (at level 100, m at next level, right associativity) : srv_scope.
Notation "m ;;; k" := (Srv.bind m (fun _ => k))
  (at level 100, right associativity) : srv_scope.

(** The double a decimal literal [num / den] denotes. *)
Definition literal (num den : Z) : spec_float :=
  match int_truediv num den with
  | Ok f => f
  | Raise _ => S754_nan
  end.

(** The variables of [main]. *)
Record handles := {
  bool_data : Node;
  pos_data : Node;
  neg_data : Node;
  temp_data : Node;
  hum_data : Node;
  cyc_data : Node;
  mirror_orig_data : Node;
  mirror_copy_data : Node;
  latitude_data : Node;
  longitude_data : Node;
  latitude_longitude_data : Node
}.

(** Lines 124 to 137 of [main]: the address space and historization.
    [idx] is the namespace index the server returned. *)
Definition main_setup (idx : Z) : Srv.St handles :=
  (bool_data <- Srv.add_variable idx "BooleanData" (VBool true) Boolean ;;
   pos_data <- Srv.add_variable idx "PositiveTrendData" (VNum (PInt 0)) Double ;;
   neg_data <- Srv.add_variable idx "NegativeTrendData" (VNum (PInt 0)) Double ;;
   temp_data <- Srv.add_variable idx "TemperatureData" (VNum (PFloat (literal 185 10))) Double ;;
   hum_data <- Srv.add_variable idx "HumidityData" (VNum (PFloat (literal 602 10))) Double ;;
   cyc_data <- Srv.add_variable idx "CyclicData" (VNum (PFloat (S754_zero false))) Double ;;
   mirror_orig_data <- Srv.add_variable idx "MirrorDataOriginal" (VBool true) Boolean ;;
   mirror_copy_data <- Srv.add_variable idx "MirrorDataCopy" (VBool true) Boolean ;;
   latitude_data <- Srv.add_variable idx "GPSLatitude" (VStr "") String ;;
   longitude_data <- Srv.add_variable idx "GPSLongitude" (VStr "") String ;;
   latitude_longitude_data <- Srv.add_variable idx "GPSLatitudeAndLongitude" (VStr "") String ;;
   Srv.historize_node_data_change cyc_data None 10000 ;;;
   Srv.ret {| bool_data := bool_data; pos_data := pos_data; neg_data := neg_data;
              temp_data := temp_data; hum_data := hum_data; cyc_data := cyc_data;
              mirror_orig_data := mirror_orig_data; mirror_copy_data := mirror_copy_data;
              latitude_data := latitude_data; longitude_data := longitude_data;
              latitude_longitude_data := latitude_longitude_data |})%srv.

(** Lines 141 to 151 of [main]: the tasks and handlers, with their
    arguments (defaults filled in). *)
Definition bool_task (h : handles) : nat -> M pyval :=
  toggle_data (bool_data h) (PInt 10) (VBool true).

Definition pos_task (h : handles) : nat -> M pynum :=
  periodic_data (pos_data h) (PInt 5) (PInt 0) (PInt 1).

Definition neg_task (h : handles) : nat -> M pynum :=
  periodic_data (neg_data h) (PInt 5) (PInt 0) (PInt (-2)).

Definition temp_task (uniform : nat -> pynum -> pynum -> spec_float) (h : handles)
    : nat -> M (pyval * nat) :=
  random_data uniform (temp_data h) (PInt 10) (VNum (PFloat (literal 185 10))) (PInt 15) (PInt 22).

Definition hum_task (uniform : nat -> pynum -> pynum -> spec_float) (h : handles)
    : nat -> M (pyval * nat) :=
  random_data uniform (hum_data h) (PInt 10) (VNum (PFloat (literal 602 10))) (PInt 0) (PInt 100).

Definition cyclic_task (h : handles) : nat -> M (pynum * bool) :=
  cyclic_data (cyc_data h) (PInt 200) (PFloat (literal 5 10)) (PInt 0) (PInt (-100)) (PInt 100).

Definition mirror_handler (h : handles) : MirrorHandler :=
  {| orig_data := mirror_orig_data h; copy_data := mirror_copy_data h |}.

Definition tcx_update_handler (h : handles) : TCXUpdateHandler :=
  {| filepath := "circular-urnieta-aia-donosti-urnieta.tcx";
     lat_data := latitude_data h;
     long_data := longitude_data h;
     lat_long_data := latitude_longitude_data h |}.

(** The variable creation requests in a request log, in order. *)
Definition creations (l : list request) : list (string * pyval * ObjectIds) :=
  omap (fun r => match r with
                 | AddVariable _ name val datatype _ => Some (name, val, datatype)
                 | _ => None
                 end) l.

(** The historization registrations in a request log. *)
Definition historizations (l : list request) : list (Node * option Z * Z) :=
  omap (fun r => match r with
                 | HistorizeNodeDataChange node period count => Some (node, period, count)
                 | _ => None
                 end) l.

(** The node a creation request of the given name returned. *)
Definition created_as (name : string) (l : list request) : list Node :=
  omap (fun r => match r with
                 | AddVariable _ name' _ _ node =>
                     if String.eqb name name' then Some node else None
                 | _ => None
                 end) l.

(** How asyncua's history store reads the [count] of a registration: it
    drops the oldest entry when [count and len(data) > count], so a count
    of 0 is no cap, any other count is the cap. *)
Definition count_cap (count : Z) : option Z :=
  if (count =? 0)%Z then None else Some count.

(** A fresh server: no request received; [first] is the first node id. *)
Definition fresh_server (first : Z) : server :=
  {| next_id := first; requests := [] |}.

(** ** Observations on traces *)

(** Every write of a trace, as (variable id, value), oldest first. *)
Definition writes (t : list event) : list (Z * pyval) :=
  omap (fun ev => match ev with
                  | WriteValue target v => Some (nodeid target, v)
                  | WriteAttributeValue id v => Some (id, v)
                  | _ => None
                  end) t.

(** The [n]-th value (from 0) a looping task writes to the variable
    [id]: read off a run long enough to contain it. *)
Definition nth_write {A} (id : Z) (task : nat -> M A) (n : nat) : option pyval :=
  written id (trace (task (S n))) !! n.

(** A key is present in a record with a truthy value. *)
Definition present_truthy (position : gmap string pyval) (key : string) : bool :=
  match position !! key with
  | Some v => truthy v
  | None => false
  end.

(** Every write of the trace goes to the variable [id]. *)
Definition writes_only_to (id : Z) (t : list event) : Prop :=
  Forall (fun ev => match write_target ev with
                    | Some id' => id' = id
                    | None => True
                    end) t.

(** The three-record track of the feed example:
    [{lat: 43.1, long: -2.0}, {lat: None, long: -2.1}, {lat: 43.2, long: None}]. *)
Definition record1 : gmap string pyval :=
  {[ "latitude" := VNum (PFloat (literal 431 10));
     "longitude" := VNum (PFloat (literal (-20) 10)) ]}.

Definition record2 : gmap string pyval :=
  {[ "latitude" := VNone;
     "longitude" := VNum (PFloat (literal (-21) 10)) ]}.

Definition record3 : gmap string pyval :=
  {[ "latitude" := VNum (PFloat (literal 432 10));
     "longitude" := VNone ]}.

Definition sample_track : list (gmap string pyval) := [record1; record2; record3].

(** ** The triangular wave of [main] *)

#[global] Instance spec_float_eq_dec : EqDecision spec_float.
Proof. solve_decision. Defined.

#[global] Instance pynum_eq_dec : EqDecision pynum.
Proof. solve_decision. Defined.

#[global] Instance exn_eq_dec : EqDecision exn.
Proof. solve_decision. Defined.

#[global] Instance result_eq_dec {A} `{EqDecision A} : EqDecision (result A).
Proof. solve_decision. Defined.

(** The arguments [main] passes to [cyclic_data]. *)
Definition wave_step : pynum := PFloat (literal 5 10).
Definition wave_min : pynum := PInt (-100).
Definition wave_max : pynum := PInt 100.

(** The value [cyclic_task] writes as its [n]-th, as a number (NaN
    stands for "no such write"). *)
Definition cyclic_value (h : handles) (n : nat) : pynum :=
  match nth_write (nodeid (cyc_data h)) (cyclic_task h) n with
  | Some (VNum x) => x
  | _ => PFloat S754_nan
  end.

(** The direction of travel after the [n]-th value of a written
    sequence [w], read off the written values alone: down once a value
    [>= 100] is written, up once a value [<= -100] is written, unchanged
    otherwise, and up at the start. *)
Fixpoint rising (w : nat -> pynum) (n : nat) : bool :=
  let before := match n with O => true | S k => rising w k end in
  if py_ge (w n) (PInt 100) then false
  else if py_le (w n) (PInt (-100)) then true
  else before.

(** The loop states met from a given one, as long as no exception is
    raised: the state itself, then the state after one iteration, ... *)
Fixpoint orbit_from (advance : pynum * bool -> result (pynum * bool))
    (n : nat) (st : pynum * bool) : list (pynum * bool) :=
  match n with
  | O => []
  | S n' =>
      st :: match advance st with
            | Ok st' => orbit_from advance n' st'
            | Raise _ => []
            end
  end.

(** The wave of [main] comes back to its starting state after 800
    iterations; these are the 800 states of one period, from
    [(0.0, True)] on. *)
Definition wave_period : nat := 800.

Definition wave_orbit : list (pynum * bool) :=
  Eval vm_compute in
    orbit_from (cyclic_advance wave_step wave_min wave_max) wave_period
               (PFloat (S754_zero false), true).

Definition orbit_state (i : nat) : pynum * bool :=
  nth i wave_orbit (PFloat S754_nan, true).

Definition next_index (i : nat) : nat := S i mod wave_period.

(** What one iteration does at the [i]-th state of the period: it
    writes a float inside the band, moves to the next state of the
    period, sets the direction by the rule of [rising] and moves the
    value strictly in that direction. *)
Definition orbit_ok (i : nat) : bool :=
  let '(value, increasing) := orbit_state i in
  let '(value', increasing') := orbit_state (next_index i) in
  bool_decide (rbind (to_float value) (fun d => Ok (PFloat d)) = Ok value)
  && bool_decide (cyclic_advance wave_step wave_min wave_max (value, increasing)
                  = Ok (value', increasing'))
  && py_le (PFloat (literal (-1005) 10)) value
  && py_le value (PFloat (literal 1005 10))
  && bool_decide (increasing' =
                  if py_ge value (PInt 100) then false
                  else if py_le value (PInt (-100)) then true
                  else increasing)
  && (if increasing' then py_lt value value' else py_lt value' value).

(** The value of the [n]-th state of the wave, period after period. *)
Definition wave (n : nat) : pynum := fst (orbit_state (n mod wave_period)).

(** ** The temperature generator of [main] *)

(** The value the temperature task draws in its [k]-th iteration:
    [round(random.uniform(15, 22), 2)] (NaN stands for an exception). *)
Definition drawn (uniform : nat -> pynum -> pynum -> spec_float) (k : nat) : spec_float :=
  match round2 (uniform k (PInt 15) (PInt 22)) with
  | Ok v => v
  | Raise _ => S754_nan
  end.

(** The decimals of two places between 15.00 and 22.00 are finite
    doubles between 15 and 22. *)
Definition dec2_ok (k : Z) : bool :=
  is_finite (dec2 false k)
  && py_le (PInt 15) (PFloat (dec2 false k))
  && py_le (PFloat (dec2 false k)) (PInt 22).

(** A stand-in for the random module that keeps to the contract of
    [random.uniform(15, 22)]: it returns 15.0 on even calls and 21.99
    on odd ones. *)
Definition sample_uniform (k : nat) (a b : pynum) : spec_float :=
  if Nat.even k then Z2F 15 else literal 2199 100.

Definition sample_handles : handles := (main_setup 2 (fresh_server 1)).1.

(** ** Predicates on numbers, for the set-up of the triangular wave *)

(** [x == 0] *)
Definition num_is_zero (x : pynum) : bool :=
  match x with
  | PInt z => (z =? 0)%Z
  | PFloat f => is_zero f
  end.

(** [x == y] *)
Definition num_eqb (x y : pynum) : bool :=
  match py_compare x y with
  | Some Eq => true
  | _ => false
  end.

Definition num_is_nan (x : pynum) : bool :=
  match x with
  | PInt _ => false
  | PFloat f => is_nan f
  end.

(** An int, or a float that is neither an infinity nor a NaN. *)
Definition num_is_finite (x : pynum) : bool :=
  match x with
  | PInt _ => true
  | PFloat f => is_finite f
  end.

(** The floats written [1e200] and [1e-200]. *)
Definition float_1e200 : spec_float := Z2F (10 ^ 200).
Definition float_1em200 : spec_float := literal 1 (10 ^ 200).

(** ** Further observations *)

(** The trace of a generator that wrote the values [vs], each write
    followed by its sleep. *)
Definition paced (data : Node) (refresh : pynum) (vs : list pyval) : list event :=
  flat_map (fun v => [WriteValue data v; Sleep refresh]) vs.

(** The value is a Python [float], respectively an [int]. *)
Definition is_float_val (v : pyval) : bool :=
  match v with VNum (PFloat _) => true | _ => false end.

Definition is_int_val (v : pyval) : bool :=
  match v with VNum (PInt _) => true | _ => false end.

(** The value a [random_data] loop draws in its [k]-th iteration:
    [round(random.uniform(min, max), 2)] (NaN stands for an exception). *)
Definition rounded_draw (uniform : nat -> pynum -> pynum -> spec_float)
    (min max : pynum) (k : nat) : spec_float :=
  match round2 (uniform k min max) with
  | Ok v => v
  | Raise _ => S754_nan
  end.

(** The decimals of two places between 0.00 and 100.00 are finite
    doubles between 0 and 100. *)
Definition dec2_percent_ok (k : Z) : bool :=
  is_finite (dec2 false k)
  && py_le (PInt 0) (PFloat (dec2 false k))
  && py_le (PFloat (dec2 false k)) (PInt 100).

(** The mirror handler called once per notification [(node, val)], in
    the order the notifications arrive. *)
Fixpoint notify_all (self : MirrorHandler) (notifications : list (Node * pyval)) : M unit :=
  match notifications with
  | [] => ret tt
  | (node, val) :: rest =>
      datachange_notification self node val ;;; notify_all self rest
  end.

(** The value [on_update] finds under a key, when it is truthy. *)
Definition truthy_field (key : string) (position : gmap string pyval) : option pyval :=
  let v := dict_get position key in
  if truthy v then Some v else None.

(** The combined string [on_update] writes for a record, when both
    fields are truthy. *)
Definition combined_field (float_repr : spec_float -> string)
    (position : gmap string pyval) : option pyval :=
  let lat := dict_get position "latitude" in
  let long := dict_get position "longitude" in
  if truthy long && truthy lat
  then Some (VStr ("lat=" +:+ py_str float_repr lat +:+ ",long=" +:+ py_str float_repr long))
  else None.

Definition sample_tcx_handler : TCXUpdateHandler :=
  {| filepath := "track.tcx";
     lat_data := {| nodeid := 1 |};
     long_data := {| nodeid := 2 |};
     lat_long_data := {| nodeid := 3 |} |}.

(** Every write of the trace goes to one of the variables [ids]. *)
Definition writes_within (ids : list Z) (t : list event) : Prop :=
  Forall (fun ev => match write_target ev with
                    | Some id => id ∈ ids
                    | None => True
                    end) t.

(** The node ids of the eleven variables of [main], in creation order. *)
Definition handle_ids (h : handles) : list Z :=
  nodeid <$> [bool_data h; pos_data h; neg_data h; temp_data h; hum_data h; cyc_data h;
              mirror_orig_data h; mirror_copy_data h;
              latitude_data h; longitude_data h; latitude_longitude_data h].

(** The initial value and the data type a node was created with,
    according to a request log. *)
Definition created_with (node : Node) (l : list request) : list (pyval * ObjectIds) :=
  omap (fun r => match r with
                 | AddVariable _ _ val datatype created =>
                     if node_eqb created node then Some (val, datatype) else None
                 | _ => None
                 end) l.

(** The data type among those of [main] that a Python value has: a
    [bool] is a Boolean, a [float] a Double, a [str] a String; an [int]
    and [None] have none of the three. *)
Definition python_type (v : pyval) : option ObjectIds :=
  match v with
  | VBool _ => Some Boolean
  | VNum (PFloat _) => Some Double
  | VStr _ => Some String
  | _ => None
  end.

(** ** Conditions on the environment *)


(** The float is a binary64 value (every Python float is). *)
Definition num_valid (x : pynum) : bool :=
  match x with
  | PInt _ => true
  | PFloat f => valid_binary prec emax f
  end.

(** [k] is an integer nearest to [100 * x], in exact arithmetic:
    [|100 * x - k| <= 1/2]. *)
Definition nearest_hundredths (x : spec_float) (k : Z) : Prop :=
  match x with
  | S754_zero _ => k = 0%Z
  | S754_finite s m (Zneg p) =>
      (2 * Z.abs (100 * cond_Zopp s (Zpos m) - k * Z.pow_pos 2 p) <= Z.pow_pos 2 p)%Z
  | S754_finite s m e => k = (100 * cond_Zopp s (Zpos m) * 2 ^ e)%Z
  | _ => False
  end.

(** The writes the feed handler is to make for a record, in order: the
    latitude if present and truthy, the longitude likewise, the combined
    string if both are. *)
Definition due_writes (float_repr : spec_float -> string) (self : TCXUpdateHandler)
    (position : gmap string pyval) : list event :=
  (if present_truthy position "latitude"
   then [WriteValue (lat_data self) (dict_get position "latitude")] else []) ++
  (if present_truthy position "longitude"
   then [WriteValue (long_data self) (dict_get position "longitude")] else []) ++
  (if present_truthy position "latitude" && present_truthy position "longitude"
   then [WriteValue (lat_long_data self)
           (VStr ("lat=" +:+ py_str float_repr (dict_get position "latitude") +:+
                  ",long=" +:+ py_str float_repr (dict_get position "longitude")))]
   else []).

(** The server accepts every write of the list. *)
Definition all_accepted (accepts : Node -> pyval -> bool) (t : list event) : Prop :=
  Forall (fun ev => match ev with
                    | WriteValue node v => accepts node v = true
                    | _ => True
                    end) t.

(** A server on which nodes 1 and 2 hold floats and node 3 a string. *)
Definition sample_accepts (node : Node) (v : pyval) : bool :=
  match nodeid node, v with
  | 1%Z, VNum (PFloat _) | 2%Z, VNum (PFloat _) | 3%Z, VStr _ => true
  | _, _ => false
  end.

(** The trace is an initial part of a paced sequence of at most [n]
    writes to [data]: writes and sleeps alternate, a write first, every
    sleep of length [refresh].  The property passes to every initial
    part of the trace. *)
Definition well_paced (data : Node) (refresh : pynum) (n : nat) (t : list event) : Prop :=
  exists vs, length vs <= n /\ t `prefix_of` paced data refresh vs.

(* ================================================================== *)
(** * Part II: theorems                                                *)
(* ================================================================== *)

(** ** The monad and the loop *)

Lemma trace_bind {A B} (m : M A) (k : A -> M B) :
  trace (bind m k) =
  trace m ++ match outcome m with Ok a => trace (k a) | Raise _ => [] end.
Proof.
  destruct m as [t [a|e]]; simpl.
  - destruct (k a); reflexivity.
  - symmetry; apply app_nil_r.
Qed.

Lemma outcome_bind {A B} (m : M A) (k : A -> M B) :
  outcome (bind m k) =
  match outcome m with Ok a => outcome (k a) | Raise e => Raise e end.
Proof.
  destruct m as [t [a|e]]; simpl; [destruct (k a)|]; reflexivity.
Qed.

Lemma bind_lift_ok {A B} (a : A) (k : A -> M B) : bind (lift (Ok a)) k = k a.
Proof. unfold bind, lift; destruct (k a); reflexivity. Qed.

Lemma bind_lift_raise {A B} (e : exn) (k : A -> M B) :
  bind (lift (Raise e)) k = ([], Raise e).
Proof. reflexivity. Qed.

Lemma written_app id t1 t2 :
  written id (t1 ++ t2) = written id t1 ++ written id t2.
Proof.
  induction t1 as [|ev t1 IH]; simpl; [reflexivity|].
  destruct ev; try assumption; case (_ =? _)%Z; simpl; congruence.
Qed.

Lemma writes_app t1 t2 : writes (t1 ++ t2) = writes t1 ++ writes t2.
Proof. apply omap_app. Qed.

(** ** The toggle generator *)

(** One iteration writes the current value, sleeps, and hands the
    flipped value to the next iteration. *)
Lemma toggle_data_S data refresh value n :
  toggle_data data refresh value (S n) =
  (WriteValue data value :: Sleep refresh ::
     trace (toggle_data data refresh (VBool (negb (truthy value))) n),
   outcome (toggle_data data refresh (VBool (negb (truthy value))) n)).
Proof.
  unfold toggle_data; simpl.
  destruct (loop _ n _) as [t r]; reflexivity.
Qed.

Lemma toggle_written data refresh b n :
  written (nodeid data) (trace (toggle_data data refresh (VBool b) n)) =
  (fun k => VBool (xorb b (k mod 2 =? 1))) <$> seq 0 n.
Proof.
  revert b; induction n as [|n IH]; intros b; [reflexivity|].
  rewrite toggle_data_S.
  cbn [trace fst written truthy seq fmap list_fmap].
  rewrite Z.eqb_refl, IH, <- fmap_S_seq, <- list_fmap_compose.
  f_equal; [destruct b; reflexivity|].
  apply list_fmap_ext; intros _ k _; unfold compose; f_equal.
  change (S k) with (1 + k).
  rewrite Nat.Div0.add_mod by lia.
  pose proof (Nat.mod_upper_bound k 2).
  destruct (k mod 2) as [|[|?]]; [destruct b; reflexivity .. | lia].
Qed.



(** ** The linear ramp generator *)

Lemma periodic_data_S_int data refresh (a inc : Z) n :
  periodic_data data refresh (PInt a) (PInt inc) (S n) =
  (WriteValue data (VNum (PInt a)) :: Sleep refresh ::
     trace (periodic_data data refresh (PInt (a + inc)) (PInt inc) n),
   outcome (periodic_data data refresh (PInt (a + inc)) (PInt inc) n)).
Proof.
  unfold periodic_data; simpl.
  destruct (loop _ n _) as [t r]; reflexivity.
Qed.

(** On integers the ramp is exact: the [k]-th value is [a + k * inc]. *)
Lemma periodic_written_int data refresh (a inc : Z) n :
  written (nodeid data) (trace (periodic_data data refresh (PInt a) (PInt inc) n)) =
  (fun k : nat => VNum (PInt (a + Z.of_nat k * inc))) <$> seq 0 n.
Proof.
  revert a; induction n as [|n IH]; intros a; [reflexivity|].
  rewrite periodic_data_S_int.
  cbn [trace fst written seq fmap list_fmap].
  rewrite Z.eqb_refl, IH, <- fmap_S_seq, <- list_fmap_compose.
  f_equal; [do 2 f_equal; lia|].
  apply list_fmap_ext; intros _ k _; unfold compose; do 2 f_equal; lia.
Qed.

Lemma periodic_outcome_int data refresh (a inc : Z) n :
  outcome (periodic_data data refresh (PInt a) (PInt inc) n) =
  Ok (PInt (a + Z.of_nat n * inc)).
Proof.
  revert a; induction n as [|n IH]; intros a.
  - simpl; do 2 f_equal; lia.
  - rewrite periodic_data_S_int; cbn [outcome snd].
    rewrite IH; do 2 f_equal; lia.
Qed.

(** C6: the ramp started by [main] with [increment=-2] and the default
    [init=0] writes [-2 * n] as its [n]-th value, for every [n]; it never
    stops with an exception, and its values go below every bound. *)
Theorem neg_task_nth_write (h : handles) :
  (forall m, written (nodeid (neg_data h)) (trace (neg_task h m)) =
             (fun n : nat => VNum (PInt (-2 * Z.of_nat n))) <$> seq 0 m) /\
  (forall n, nth_write (nodeid (neg_data h)) (neg_task h) n =
             Some (VNum (PInt (-2 * Z.of_nat n)))) /\
  (forall m, exists st, outcome (neg_task h m) = Ok st) /\
  (forall bound : Z, exists n v,
      nth_write (nodeid (neg_data h)) (neg_task h) n = Some (VNum (PInt v)) /\
      (v < bound)%Z).
Proof.
  assert (W : forall m, written (nodeid (neg_data h)) (trace (neg_task h m)) =
             (fun n : nat => VNum (PInt (-2 * Z.of_nat n))) <$> seq 0 m).
  { intros m; unfold neg_task; rewrite periodic_written_int.
    apply list_fmap_ext; intros _ k _; do 2 f_equal; lia. }
  assert (N : forall n, nth_write (nodeid (neg_data h)) (neg_task h) n =
             Some (VNum (PInt (-2 * Z.of_nat n)))).
  { intros n; unfold nth_write.
    rewrite W, list_lookup_fmap, lookup_seq_lt by lia; reflexivity. }
  repeat split; [exact W | exact N | |].
  - intros m; eexists; apply periodic_outcome_int.
  - intros bound.
    exists (Z.to_nat (Z.abs bound) + 1), (-2 * Z.of_nat (Z.to_nat (Z.abs bound) + 1))%Z.
    split; [apply N | lia].
Qed.

(** ** Frame: a generator writes to its own variable only *)

Lemma writes_only_to_bind {A B} id (m : M A) (k : A -> M B) :
  writes_only_to id (trace m) ->
  (forall a, writes_only_to id (trace (k a))) ->
  writes_only_to id (trace (bind m k)).
Proof.
  intros Hm Hk; rewrite trace_bind.
  apply Forall_app; split; [assumption|].
  destruct (outcome m); [apply Hk | constructor].
Qed.

Lemma writes_only_to_loop {S} id (body : S -> M S) :
  (forall s, writes_only_to id (trace (body s))) ->
  forall n s, writes_only_to id (trace (loop body n s)).
Proof.
  intros Hbody; induction n as [|n IH]; intros s; simpl.
  - constructor.
  - apply writes_only_to_bind; auto.
Qed.

Lemma writes_only_to_lift {A} id (r : result A) :
  writes_only_to id (trace (lift r)).
Proof. constructor. Qed.

Lemma writes_only_to_ret {A} id (a : A) : writes_only_to id (trace (ret a)).
Proof. constructor. Qed.

Lemma writes_only_to_write id data v :
  nodeid data = id -> writes_only_to id (trace (emit (WriteValue data v))).
Proof. intros <-; repeat constructor. Qed.

Lemma writes_only_to_sleep id d : writes_only_to id (trace (emit (Sleep d))).
Proof. repeat constructor. Qed.

Create HintDb frame.

#[local] Hint Resolve writes_only_to_lift writes_only_to_ret
  writes_only_to_write writes_only_to_sleep : frame.

Ltac frame_body :=
  repeat (apply writes_only_to_bind; [|intros ?]); auto with frame.

Lemma toggle_data_frame data refresh init n :
  writes_only_to (nodeid data) (trace (toggle_data data refresh init n)).
Proof. apply writes_only_to_loop; intros s; unfold toggle_body; frame_body. Qed.

Lemma periodic_data_frame data refresh init increment n :
  writes_only_to (nodeid data) (trace (periodic_data data refresh init increment n)).
Proof. apply writes_only_to_loop; intros s; unfold periodic_body; frame_body. Qed.

Lemma random_data_frame uniform data refresh init min max n :
  writes_only_to (nodeid data) (trace (random_data uniform data refresh init min max n)).
Proof.
  apply writes_only_to_loop; intros [value k]; unfold random_body; frame_body.
Qed.

Lemma cyclic_data_frame data cycle_time step init min max n :
  writes_only_to (nodeid data) (trace (cyclic_data data cycle_time step init min max n)).
Proof.
  unfold cyclic_data; apply writes_only_to_bind; [auto with frame|].
  intros refresh; apply writes_only_to_loop; intros s.
  unfold cyclic_body; frame_body.
Qed.

(** C7: in every iteration, whatever its arguments (and whatever the
    random module returns), each of the four generators writes to no
    variable but the [data] it was given. *)
Theorem generators_write_only_own_variable (data : Node) (n : nat) :
  (forall refresh init,
      writes_only_to (nodeid data) (trace (toggle_data data refresh init n))) /\
  (forall refresh init increment,
      writes_only_to (nodeid data) (trace (periodic_data data refresh init increment n))) /\
  (forall uniform refresh init min max,
      writes_only_to (nodeid data) (trace (random_data uniform data refresh init min max n))) /\
  (forall cycle_time step init min max,
      writes_only_to (nodeid data) (trace (cyclic_data data cycle_time step init min max n))).
Proof.
  repeat split; intros.
  - apply toggle_data_frame.
  - apply periodic_data_frame.
  - apply random_data_frame.
  - apply cyclic_data_frame.
Qed.

(** ** The mirror handler *)

(** C1, as the claim has it, fails: a notification about another node
    than the original, carrying a value that is not a boolean, is
    dropped without any error being logged. *)
Lemma mirror_foreign_node_not_logged :
  let self := {| orig_data := {| nodeid := 7 |}; copy_data := {| nodeid := 8 |} |} in
  let node := {| nodeid := 9 |} in
  let val := VNum (PInt 5) in
  ~ (is_bool val = false ->
     logged (trace (datachange_notification self node val)) <> []).
Proof.
  intros self node val H; apply H; reflexivity.
Qed.

(** C1, amended: the handler writes if and only if the notifying node is
    the original and the value is a boolean, and then it writes exactly
    that value, to the copy and nowhere else; it logs the error if and
    only if the notifying node is the original and the value is not a
    boolean; a notification about any other node does nothing; and in
    every case the handler returns normally. *)
Theorem mirror_notification (self : MirrorHandler) (node : Node) (val : pyval) :
  let run := datachange_notification self node val in
  writes (trace run) =
    (if node_eqb (orig_data self) node && is_bool val
     then [(nodeid (copy_data self), val)] else []) /\
  logged (trace run) =
    (if node_eqb (orig_data self) node && negb (is_bool val)
     then ["Node value is not boolean"] else []) /\
  (if node_eqb (orig_data self) node then True else trace run = []) /\
  outcome run = Ok tt.
Proof.
  unfold datachange_notification.
  destruct (node_eqb (orig_data self) node), (is_bool val);
    repeat split; reflexivity.
Qed.

(** ** Start-up *)

(** C8, as the claim has it, fails: [main] creates eleven variables,
    not ten. *)
Lemma main_does_not_create_ten :
  length (creations (requests (main_setup 2 (fresh_server 1)).2)) <> 10.
Proof. vm_compute; lia. Qed.

(** C8, amended: at start-up [main] issues creation requests for exactly
    eleven variables, in this order: a boolean toggle, two double ramps,
    two bounded-random doubles, one bounded-triangular double, a boolean
    pair for mirroring, and three strings for the position. *)
Theorem main_creates_eleven_variables (idx first : Z) :
  let log := requests (main_setup idx (fresh_server first)).2 in
  creations log =
    [ ("BooleanData", VBool true, Boolean);
      ("PositiveTrendData", VNum (PInt 0), Double);
      ("NegativeTrendData", VNum (PInt 0), Double);
      ("TemperatureData", VNum (PFloat (literal 185 10)), Double);
      ("HumidityData", VNum (PFloat (literal 602 10)), Double);
      ("CyclicData", VNum (PFloat (S754_zero false)), Double);
      ("MirrorDataOriginal", VBool true, Boolean);
      ("MirrorDataCopy", VBool true, Boolean);
      ("GPSLatitude", VStr "", String);
      ("GPSLongitude", VStr "", String);
      ("GPSLatitudeAndLongitude", VStr "", String) ] /\
  length (creations log) = 11 /\
  let h := (main_setup idx (fresh_server first)).1 in
  created_as "BooleanData" log = [bool_data h] /\
  created_as "PositiveTrendData" log = [pos_data h] /\
  created_as "NegativeTrendData" log = [neg_data h] /\
  created_as "TemperatureData" log = [temp_data h] /\
  created_as "HumidityData" log = [hum_data h] /\
  created_as "CyclicData" log = [cyc_data h] /\
  created_as "MirrorDataOriginal" log = [mirror_orig_data h] /\
  created_as "MirrorDataCopy" log = [mirror_copy_data h] /\
  created_as "GPSLatitude" log = [latitude_data h] /\
  created_as "GPSLongitude" log = [longitude_data h] /\
  created_as "GPSLatitudeAndLongitude" log = [latitude_longitude_data h].
Proof.
  cbv zeta; repeat split; reflexivity.
Qed.

(** C9, as the claim has it, fails: the one registration [main] makes
    carries [count=10000], which caps the history at 10000 changes. *)
Lemma historization_count_is_capped :
  ~ exists node period count,
      historizations (requests (main_setup 2 (fresh_server 1)).2) = [(node, period, count)] /\
      count_cap count = None.
Proof.
  intros (node & period & count & H & Hcap).
  vm_compute in H; injection H as _ _ <-; discriminate.
Qed.

(** C9, amended: at start-up [main] issues exactly one historization
    registration, on the variable created as "CyclicData" (the one the
    triangular wave task writes), with no retention period
    ([period=None]) and a count cap of 10000 changes. *)
Theorem main_historizes_cyclic_data (idx first : Z) :
  let log := requests (main_setup idx (fresh_server first)).2 in
  let h := (main_setup idx (fresh_server first)).1 in
  historizations log = [(cyc_data h, None, 10000%Z)] /\
  created_as "CyclicData" log = [cyc_data h] /\
  count_cap 10000 = Some 10000%Z /\
  forall n, writes_only_to (nodeid (cyc_data h)) (trace (cyclic_task h n)).
Proof.
  cbv zeta; repeat split; try reflexivity.
  intros n; unfold cyclic_task; apply cyclic_data_frame.
Qed.

(** ** The GPS feed handler *)

Lemma truthy_dict_get position key :
  truthy (dict_get position key) = present_truthy position key.
Proof.
  unfold dict_get, present_truthy; destruct (position !! key); reflexivity.
Qed.

Lemma on_update_prefix float_repr accepts self position :
  trace (on_update float_repr accepts self position)
    `prefix_of` due_writes float_repr self position.
Proof.
  unfold on_update, due_writes, write_if, write_value; rewrite !truthy_dict_get.
  destruct (present_truthy position "latitude"),
           (present_truthy position "longitude");
    cbn [andb];
    repeat match goal with
           | |- context [accepts ?n ?v] => destruct (accepts n v)
           end;
    cbn; eexists; reflexivity.
Qed.

Lemma on_update_ok float_repr accepts self position :
  outcome (on_update float_repr accepts self position) = Ok tt ->
  trace (on_update float_repr accepts self position) = due_writes float_repr self position.
Proof.
  unfold on_update, due_writes, write_if, write_value; rewrite !truthy_dict_get.
  destruct (present_truthy position "latitude"),
           (present_truthy position "longitude");
    cbn [andb];
    repeat match goal with
           | |- context [accepts ?n ?v] => destruct (accepts n v)
           end;
    cbn; intros H; reflexivity || discriminate H.
Qed.

Lemma on_update_accepted float_repr accepts self position :
  all_accepted accepts (due_writes float_repr self position) ->
  on_update float_repr accepts self position =
  (due_writes float_repr self position, Ok tt).
Proof.
  unfold on_update, due_writes, write_if, write_value, all_accepted.
  rewrite !truthy_dict_get.
  destruct (present_truthy position "latitude"),
           (present_truthy position "longitude");
    cbn [andb app]; intros H;
    repeat match goal with
           | H : Forall _ (_ :: _) |- _ =>
               let E := fresh "E" in
               apply Forall_cons in H as [E H]; rewrite ?E
           end;
    reflexivity.
Qed.

Lemma written_cons_other id target v t :
  nodeid target <> id -> written id (WriteValue target v :: t) = written id t.
Proof. intros H; simpl; destruct (Z.eqb_spec (nodeid target) id); congruence. Qed.

Lemma written_cons_same id target v t :
  nodeid target = id -> written id (WriteValue target v :: t) = v :: written id t.
Proof. intros H; simpl; destruct (Z.eqb_spec (nodeid target) id); congruence. Qed.

(** C4: for every record, [on_update] writes the latitude only when
    the record has a truthy latitude, the longitude likewise, and the
    combined string only when both are: its writes are the due writes,
    up to the first one the server refuses, and all of them when it
    returns normally; a latitude of 0.0 is skipped.  On the three-record
    track, with three variables that are different nodes and that take
    floats (latitude, longitude) and strings (combined), the first
    record gives all three writes, the second the longitude only, the
    third the latitude only: the latitude is written for records 1 and
    3, the longitude for records 1 and 2 and the combined string
    once. *)
Theorem feed_on_update float_repr accepts (self : TCXUpdateHandler) :
  (forall position,
     trace (on_update float_repr accepts self position)
       `prefix_of` due_writes float_repr self position /\
     (outcome (on_update float_repr accepts self position) = Ok tt ->
      trace (on_update float_repr accepts self position) =
        due_writes float_repr self position) /\
     (all_accepted accepts (due_writes float_repr self position) ->
      on_update float_repr accepts self position =
        (due_writes float_repr self position, Ok tt))) /\
  (forall position s,
     present_truthy (<["latitude" := VNum (PFloat (S754_zero s))]> position) "latitude" = false) /\
  ((forall f, accepts (lat_data self) (VNum (PFloat f)) = true) ->
   (forall f, accepts (long_data self) (VNum (PFloat f)) = true) ->
   (forall s, accepts (lat_long_data self) (VStr s) = true) ->
   nodeid (lat_data self) <> nodeid (long_data self) ->
   nodeid (lat_data self) <> nodeid (lat_long_data self) ->
   nodeid (long_data self) <> nodeid (lat_long_data self) ->
   let run := tcx_update_start float_repr accepts self sample_track in
   trace (on_update float_repr accepts self record1) =
     [ WriteValue (lat_data self) (VNum (PFloat (literal 431 10)));
       WriteValue (long_data self) (VNum (PFloat (literal (-20) 10)));
       WriteValue (lat_long_data self)
         (VStr ("lat=" +:+ float_repr (literal 431 10) +:+
                ",long=" +:+ float_repr (literal (-20) 10))) ] /\
   trace (on_update float_repr accepts self record2) =
     [ WriteValue (long_data self) (VNum (PFloat (literal (-21) 10))) ] /\
   trace (on_update float_repr accepts self record3) =
     [ WriteValue (lat_data self) (VNum (PFloat (literal 432 10))) ] /\
   written (nodeid (lat_data self)) (trace run) =
     [VNum (PFloat (literal 431 10)); VNum (PFloat (literal 432 10))] /\
   written (nodeid (long_data self)) (trace run) =
     [VNum (PFloat (literal (-20) 10)); VNum (PFloat (literal (-21) 10))] /\
   written (nodeid (lat_long_data self)) (trace run) =
     [VStr ("lat=" +:+ float_repr (literal 431 10) +:+
            ",long=" +:+ float_repr (literal (-20) 10))] /\
   outcome run = Ok tt).
Proof.
  split; [|split].
  - intros position; split; [apply on_update_prefix|].
    split; [apply on_update_ok | apply on_update_accepted].
  - intros position s; unfold present_truthy.
    rewrite lookup_insert_eq; reflexivity.
  - intros Hlat Hlong Hboth Dlatlong Dlatboth Dlongboth run.
    assert (E1 : on_update float_repr accepts self record1 =
      ([ WriteValue (lat_data self) (VNum (PFloat (literal 431 10)));
         WriteValue (long_data self) (VNum (PFloat (literal (-20) 10)));
         WriteValue (lat_long_data self)
           (VStr ("lat=" +:+ float_repr (literal 431 10) +:+
                  ",long=" +:+ float_repr (literal (-20) 10))) ], Ok tt)).
    { assert (D : due_writes float_repr self record1 =
        [ WriteValue (lat_data self) (VNum (PFloat (literal 431 10)));
          WriteValue (long_data self) (VNum (PFloat (literal (-20) 10)));
          WriteValue (lat_long_data self)
            (VStr ("lat=" +:+ float_repr (literal 431 10) +:+
                   ",long=" +:+ float_repr (literal (-20) 10))) ]) by reflexivity.
      rewrite on_update_accepted; rewrite D; [reflexivity|].
      repeat constructor; auto. }
    assert (E2 : on_update float_repr accepts self record2 =
      ([ WriteValue (long_data self) (VNum (PFloat (literal (-21) 10))) ], Ok tt)).
    { assert (D : due_writes float_repr self record2 =
        [ WriteValue (long_data self) (VNum (PFloat (literal (-21) 10))) ]) by reflexivity.
      rewrite on_update_accepted; rewrite D; [reflexivity|].
      repeat constructor; auto. }
    assert (E3 : on_update float_repr accepts self record3 =
      ([ WriteValue (lat_data self) (VNum (PFloat (literal 432 10))) ], Ok tt)).
    { assert (D : due_writes float_repr self record3 =
        [ WriteValue (lat_data self) (VNum (PFloat (literal 432 10))) ]) by reflexivity.
      rewrite on_update_accepted; rewrite D; [reflexivity|].
      repeat constructor; auto. }
    assert (T : run =
      ([ WriteValue (lat_data self) (VNum (PFloat (literal 431 10)));
         WriteValue (long_data self) (VNum (PFloat (literal (-20) 10)));
         WriteValue (lat_long_data self)
           (VStr ("lat=" +:+ float_repr (literal 431 10) +:+
                  ",long=" +:+ float_repr (literal (-20) 10)));
         WriteValue (long_data self) (VNum (PFloat (literal (-21) 10)));
         WriteValue (lat_data self) (VNum (PFloat (literal 432 10))) ], Ok tt)).
    { subst run; unfold tcx_update_start, sample_track; cbn [tcx_start].
      rewrite E1, E2, E3; reflexivity. }
    rewrite E1, E2, E3, T; cbn [trace outcome fst snd].
    repeat split.
    + rewrite written_cons_same, written_cons_other, written_cons_other,
        written_cons_other, written_cons_same by congruence; reflexivity.
    + rewrite written_cons_other, written_cons_same, written_cons_other,
        written_cons_same, written_cons_other by congruence; reflexivity.
    + rewrite written_cons_other, written_cons_other, written_cons_same,
        written_cons_other, written_cons_other by congruence; reflexivity.
Qed.

Lemma feed_on_update_witness :
  let run := tcx_update_start (fun _ => "?") sample_accepts sample_tcx_handler sample_track in
  written 1 (trace run) =
    [VNum (PFloat (literal 431 10)); VNum (PFloat (literal 432 10))] /\
  written 2 (trace run) =
    [VNum (PFloat (literal (-20) 10)); VNum (PFloat (literal (-21) 10))] /\
  written 3 (trace run) = [VStr "lat=?,long=?"] /\
  outcome run = Ok tt.
Proof.
  destruct (feed_on_update (fun _ => "?") sample_accepts sample_tcx_handler)
    as (_ & _ & H).
  destruct H as (_ & _ & _ & Hlat & Hlong & Hboth & Ho);
    try (intros; reflexivity); try discriminate.
  repeat split; assumption.
Defined.

(** ** The triangular wave *)

Lemma wave_orbit_ok : forallb orbit_ok (seq 0 wave_period) = true.
Proof. vm_compute; reflexivity. Qed.

Lemma wave_period_pos : wave_period <> 0.
Proof. discriminate. Qed.

Lemma next_index_lt i : next_index i < wave_period.
Proof. apply Nat.mod_upper_bound, wave_period_pos. Qed.

Lemma next_index_mod n : next_index (n mod wave_period) = S n mod wave_period.
Proof.
  unfold next_index.
  replace (S (n mod wave_period)) with (n mod wave_period + 1) by lia.
  replace (S n) with (n + 1) by lia.
  apply Nat.Div0.add_mod_idemp_l.
Qed.

(** The facts of [orbit_ok], one state at a time. *)
Lemma orbit_step i :
  i < wave_period ->
  exists d d' inc inc',
    orbit_state i = (PFloat d, inc) /\
    orbit_state (next_index i) = (PFloat d', inc') /\
    cyclic_advance wave_step wave_min wave_max (PFloat d, inc) = Ok (PFloat d', inc') /\
    py_le (PFloat (literal (-1005) 10)) (PFloat d) = true /\
    py_le (PFloat d) (PFloat (literal 1005 10)) = true /\
    inc' = (if py_ge (PFloat d) (PInt 100) then false
            else if py_le (PFloat d) (PInt (-100)) then true else inc) /\
    (if inc' then py_lt (PFloat d) (PFloat d') else py_lt (PFloat d') (PFloat d)) = true.
Proof.
  intros Hi.
  pose proof wave_orbit_ok as Hall.
  rewrite forallb_forall in Hall.
  assert (Hin : In i (seq 0 wave_period)) by (apply in_seq; lia).
  apply Hall in Hin; clear Hall.
  assert (Hnext : forall j, j < wave_period -> orbit_ok j = true ->
            exists d inc, orbit_state j = (PFloat d, inc)).
  { intros j _ Hj; unfold orbit_ok in Hj.
    destruct (orbit_state j) as [[z|d] inc]; [|eauto].
    destruct (orbit_state (next_index j)) as [value' inc'].
    rewrite !andb_true_iff in Hj; destruct Hj as [[[[[Hf _] _] _] _] _].
    apply bool_decide_eq_true in Hf; simpl in Hf.
    unfold checked in Hf; destruct (is_finite _); discriminate. }
  destruct (Hnext i Hi Hin) as (d & inc & Ei).
  assert (Hin' : orbit_ok (next_index i) = true).
  { pose proof wave_orbit_ok as Hall; rewrite forallb_forall in Hall.
    apply Hall, in_seq; pose proof (next_index_lt i); lia. }
  destruct (Hnext _ (next_index_lt i) Hin') as (d' & inc' & Ei').
  exists d, d', inc, inc'.
  unfold orbit_ok in Hin; rewrite Ei, Ei' in Hin.
  rewrite !andb_true_iff in Hin.
  destruct Hin as [[[[[_ Hadv] Hlo] Hhi] Hdir] Hmono].
  apply bool_decide_eq_true in Hadv, Hdir.
  repeat split; assumption.
Qed.

Lemma cyclic_body_step data refresh step min max value increasing d st' :
  to_float value = Ok d ->
  cyclic_advance step min max (value, increasing) = Ok st' ->
  cyclic_body data refresh step min max (value, increasing) =
  ([WriteValue data (VNum (PFloat d)); Sleep refresh], Ok st').
Proof.
  intros Hd Hadv; unfold cyclic_body, lift.
  cbn [fst]; rewrite Hd, Hadv; reflexivity.
Qed.

(** Started anywhere in the period, the loop walks the period. *)
Lemma wave_loop data refresh n : forall i,
  i < wave_period ->
  let run := loop (cyclic_body data refresh wave_step wave_min wave_max) n (orbit_state i) in
  written (nodeid data) (trace run) =
    (fun k => VNum (fst (orbit_state ((i + k) mod wave_period)))) <$> seq 0 n /\
  outcome run = Ok (orbit_state ((i + n) mod wave_period)).
Proof.
  induction n as [|n IH]; intros i Hi run; subst run.
  - rewrite Nat.add_0_r, Nat.mod_small by assumption; split; reflexivity.
  - destruct (orbit_step i Hi) as (d & d' & inc & inc' & Ei & Ei' & Hadv & _).
    cbn [loop]; rewrite Ei.
    rewrite (cyclic_body_step _ _ _ _ _ _ _ d (PFloat d', inc')) by (reflexivity || assumption).
    rewrite <- Ei'.
    destruct (IH (next_index i) (next_index_lt i)) as [IHw IHo].
    destruct (loop _ n (orbit_state (next_index i))) as [t r] eqn:El.
    cbn [bind trace outcome fst snd app] in *.
    rewrite El; cbn [trace outcome fst snd written].
    rewrite Z.eqb_refl, IHw, IHo.
    assert (Hidx : forall k, (next_index i + k) mod wave_period = (i + S k) mod wave_period).
    { intros k; unfold next_index.
      rewrite Nat.Div0.add_mod_idemp_l.
      replace (S i + k) with (i + S k) by lia; reflexivity. }
    split.
    + cbn [seq fmap list_fmap].
      rewrite <- fmap_S_seq, <- list_fmap_compose.
      f_equal.
      * rewrite Nat.add_0_r, Nat.mod_small, Ei by assumption; reflexivity.
      * apply list_fmap_ext; intros _ k _; unfold compose; rewrite Hidx; reflexivity.
    + rewrite Hidx; reflexivity.
Qed.

Lemma wave_refresh :
  cyclic_refresh (PInt 200) wave_step wave_min wave_max = Ok (PFloat (literal 5 10)).
Proof. vm_compute; reflexivity. Qed.

Lemma wave_first_step :
  cyclic_advance wave_step wave_min wave_max (PInt 0, true) = Ok (orbit_state 1).
Proof. vm_compute; reflexivity. Qed.

Lemma wave_0 : wave 0 = PFloat (S754_zero false).
Proof. vm_compute; reflexivity. Qed.

(** The task of [main]: it never raises, and the values it writes are
    the values of the period, over and over. *)
Lemma wave_written data m :
  let run := cyclic_data data (PInt 200) wave_step (PInt 0) wave_min wave_max m in
  written (nodeid data) (trace run) = (fun n => VNum (wave n)) <$> seq 0 m /\
  exists st, outcome run = Ok st.
Proof.
  unfold cyclic_data; rewrite wave_refresh, bind_lift_ok.
  destruct m as [|n]; [split; [reflexivity | eexists; reflexivity]|].
  cbn [loop].
  rewrite (cyclic_body_step _ _ _ _ _ _ _ (S754_zero false) (orbit_state 1))
    by (reflexivity || apply wave_first_step).
  assert (H1 : 1 < wave_period) by (unfold wave_period; lia).
  destruct (wave_loop data (PFloat (literal 5 10)) n 1 H1) as [Hw Ho].
  destruct (loop _ n (orbit_state 1)) as [t r] eqn:El.
  cbn [bind trace outcome fst snd app] in *.
  rewrite El; cbn [trace outcome fst snd written].
  rewrite Z.eqb_refl, Hw, Ho; split; [|eexists; reflexivity].
  cbn [seq fmap list_fmap].
  rewrite <- fmap_S_seq, <- list_fmap_compose, wave_0.
  reflexivity.
Qed.

Lemma cyclic_value_wave h n : cyclic_value h n = wave n.
Proof.
  unfold cyclic_value, nth_write, cyclic_task.
  destruct (wave_written (cyc_data h) (S n)) as [Hw _].
  change (PFloat (literal 5 10)) with wave_step.
  change (PInt (-100)) with wave_min.
  change (PInt 100) with wave_max.
  rewrite Hw, list_lookup_fmap, lookup_seq_lt by lia; reflexivity.
Qed.

Lemma rising_ext w w' n : (forall k, w k = w' k) -> rising w n = rising w' n.
Proof.
  intros E; induction n as [|n IH]; cbn [rising]; rewrite E; [|rewrite IH]; reflexivity.
Qed.

Lemma wave_S n : wave (S n) = fst (orbit_state (next_index (n mod wave_period))).
Proof. unfold wave; rewrite next_index_mod; reflexivity. Qed.

Lemma mod_period_lt n : n mod wave_period < wave_period.
Proof. apply Nat.mod_upper_bound, wave_period_pos. Qed.

(** The direction read off the written values is the flag the loop
    carries into the next iteration. *)
Lemma rising_wave n :
  rising wave n = snd (orbit_state (next_index (n mod wave_period))).
Proof.
  induction n as [|n IH].
  - vm_compute; reflexivity.
  - destruct (orbit_step (S n mod wave_period) (mod_period_lt _))
      as (d & d' & inc & inc' & Ei & Ei' & _ & _ & _ & Hdir & _).
    cbn [rising]; rewrite IH, next_index_mod.
    unfold wave; rewrite Ei, Ei'; cbn [fst snd]; symmetry; exact Hdir.
Qed.

Lemma wave_hits i n :
  i < wave_period -> exists m, n <= m /\ wave m = fst (orbit_state i).
Proof.
  intros Hi; exists (i + (n / wave_period + 1) * wave_period); split.
  - pose proof (Nat.div_mod_eq n wave_period).
    pose proof (mod_period_lt n); lia.
  - unfold wave; rewrite Nat.Div0.mod_add, Nat.mod_small by assumption; reflexivity.
Qed.

(** C3: the triangular wave task of [main] ([min=-100], [max=100],
    [step=0.5], [init=0]) never stops writing: a run of [m] iterations
    writes [m] values and does not raise; every value it writes is a
    float in [[-100.5, 100.5]]; the sequence rises strictly until a value
    [>= 100] is written, then falls strictly until a value [<= -100] is
    written, then rises again, and both turning points come back for
    ever. *)
Theorem cyclic_task_triangular_wave (h : handles) :
  (forall m, written (nodeid (cyc_data h)) (trace (cyclic_task h m)) =
             (fun n => VNum (cyclic_value h n)) <$> seq 0 m) /\
  (forall n, exists v,
      nth_write (nodeid (cyc_data h)) (cyclic_task h) n = Some (VNum (PFloat v))) /\
  (forall m, exists st, outcome (cyclic_task h m) = Ok st) /\
  (forall n,
      py_le (PFloat (literal (-1005) 10)) (cyclic_value h n) = true /\
      py_le (cyclic_value h n) (PFloat (literal 1005 10)) = true) /\
  (forall n,
      if rising (cyclic_value h) n
      then py_lt (cyclic_value h n) (cyclic_value h (S n)) = true
      else py_lt (cyclic_value h (S n)) (cyclic_value h n) = true) /\
  (forall n, exists m, n <= m /\ py_ge (cyclic_value h m) (PInt 100) = true) /\
  (forall n, exists m, n <= m /\ py_le (cyclic_value h m) (PInt (-100)) = true).
Proof.
  split; [|split; [|split; [|split; [|split; [|split]]]]].
  - intros m; unfold cyclic_task.
    destruct (wave_written (cyc_data h) m) as [Hw _].
    change (PFloat (literal 5 10)) with wave_step.
    change (PInt (-100)) with wave_min.
    change (PInt 100) with wave_max.
    rewrite Hw; apply list_fmap_ext; intros _ n _.
    rewrite cyclic_value_wave; reflexivity.
  - intros n; unfold nth_write, cyclic_task.
    destruct (wave_written (cyc_data h) (S n)) as [Hw _].
    change (PFloat (literal 5 10)) with wave_step.
    change (PInt (-100)) with wave_min.
    change (PInt 100) with wave_max.
    rewrite Hw, list_lookup_fmap, lookup_seq_lt by lia.
    destruct (orbit_step (n mod wave_period) (mod_period_lt _)) as (d & _ & inc & _ & Ei & _).
    exists d; cbn; unfold wave; rewrite Ei; reflexivity.
  - intros m; unfold cyclic_task; apply (wave_written (cyc_data h) m).
  - intros n; rewrite cyclic_value_wave.
    destruct (orbit_step (n mod wave_period) (mod_period_lt _))
      as (d & _ & inc & _ & Ei & _ & _ & Hlo & Hhi & _).
    unfold wave; rewrite Ei; split; assumption.
  - intros n.
    rewrite (rising_ext _ wave) by apply cyclic_value_wave.
    rewrite !cyclic_value_wave, rising_wave, wave_S.
    destruct (orbit_step (n mod wave_period) (mod_period_lt _))
      as (d & d' & inc & inc' & Ei & Ei' & _ & _ & _ & _ & Hmono).
    unfold wave; rewrite Ei, Ei'; cbn [fst snd].
    destruct inc'; assumption.
  - intros n; destruct (wave_hits 200 n) as (m & Hm & Em);
      [unfold wave_period; lia|].
    exists m; split; [assumption|].
    rewrite cyclic_value_wave, Em; vm_compute; reflexivity.
  - intros n; destruct (wave_hits 600 n) as (m & Hm & Em);
      [unfold wave_period; lia|].
    exists m; split; [assumption|].
    rewrite cyclic_value_wave, Em; vm_compute; reflexivity.
Qed.

(** ** The bounded random generator *)

Lemma dec2_table :
  forallb (fun i => dec2_ok (1500 + Z.of_nat i)) (seq 0 701) = true.
Proof. vm_compute; reflexivity. Qed.

Lemma dec2_in_range k :
  (1500 <= k <= 2200)%Z -> dec2_ok k = true.
Proof.
  intros Hk; pose proof dec2_table as T; rewrite forallb_forall in T.
  replace k with (1500 + Z.of_nat (Z.to_nat (k - 1500)))%Z by lia.
  apply T, in_seq; lia.
Qed.

Lemma div_half_even_bounds a b lo hi :
  (lo * Zpos b <= a <= hi * Zpos b)%Z ->
  (lo <= div_half_even a b <= hi)%Z.
Proof.
  intros [Hlo Hhi]; unfold div_half_even.
  pose proof (Z.div_mod a (Zpos b) ltac:(lia)) as Hdiv.
  pose proof (Z.mod_pos_bound a (Zpos b) ltac:(lia)) as Hmod.
  set (q := (a / Zpos b)%Z) in *; set (r := (a mod Zpos b)%Z) in *.
  assert (lo <= q)%Z by nia.
  assert (q <= hi)%Z by nia.
  destruct (Z.compare_spec (2 * r) (Zpos b)) as [E|L|G].
  - assert (q < hi)%Z by nia.
    destruct (Z.even q); lia.
  - lia.
  - assert (q < hi)%Z by nia. lia.
Qed.

Lemma div_half_even_nearest a b :
  (2 * Z.abs (a - div_half_even a b * Zpos b) <= Zpos b)%Z.
Proof.
  unfold div_half_even.
  pose proof (Z.div_mod a (Zpos b) ltac:(lia)) as Hdiv.
  pose proof (Z.mod_pos_bound a (Zpos b) ltac:(lia)) as Hmod.
  set (q := (a / Zpos b)%Z) in *; set (r := (a mod Zpos b)%Z) in *.
  destruct (Z.compare_spec (2 * r) (Zpos b)) as [E|L|G];
    [destruct (Z.even q)| |]; nia.
Qed.

(** The hundredths [round2] computes are nearest to the float. *)
Lemma hundredths_nearest m e :
  nearest_hundredths (S754_finite false m e) (hundredths m e).
Proof.
  destruct e as [|p|p]; cbn [nearest_hundredths hundredths cond_Zopp]; try reflexivity.
  rewrite <- (Pos2Z.inj_pow_pos 2 p); apply div_half_even_nearest.
Qed.

(** Rounding a float between 15 and 22 to two places gives a decimal
    between 15.00 and 22.00, the one nearest to the float. *)
Lemma round2_in_range u :
  py_le (PInt 15) (PFloat u) = true ->
  py_le (PFloat u) (PInt 22) = true ->
  exists k, (1500 <= k <= 2200)%Z /\ round2 u = Ok (dec2 false k) /\
            nearest_hundredths u k.
Proof.
  unfold py_le, py_compare.
  destruct u as [s|s| |s m e]; cbn [compare_int_float option_map].
  - discriminate.
  - destruct s; discriminate.
  - discriminate.
  - intros H1 H2.
    assert (exists k, (1500 <= k <= 2200)%Z /\ s = false /\ hundredths m e = k)
      as (k & Hk & -> & Ek).
    { destruct e as [|p|p]; cbn [option_map] in H1, H2.
      - destruct (Z.compare_spec 15 (cond_Zopp s (Zpos m) * 2 ^ 0)) as [E|L|G];
          try discriminate;
        destruct (Z.compare_spec 22 (cond_Zopp s (Zpos m) * 2 ^ 0)) as [E'|L'|G'];
          try discriminate;
        destruct s; cbn [cond_Zopp] in *; try lia;
        (eexists; split; [|split; [reflexivity|reflexivity]]);
        cbn [hundredths]; lia.
      - pose proof (Z.pow_pos_nonneg 2 (Zpos p) ltac:(lia) ltac:(lia)) as Hp.
        destruct (Z.compare_spec 15 (cond_Zopp s (Zpos m) * 2 ^ Zpos p)) as [E|L|G];
          try discriminate;
        destruct (Z.compare_spec 22 (cond_Zopp s (Zpos m) * 2 ^ Zpos p)) as [E'|L'|G'];
          try discriminate;
        destruct s; cbn [cond_Zopp] in *; try nia;
        (eexists; split; [|split; [reflexivity|reflexivity]]);
        cbn [hundredths]; nia.
      - pose proof (Pos2Z.inj_pow_pos 2 p) as Ep.
        assert (0 < Z.pow_pos 2 p)%Z as Hp by (rewrite <- Ep; lia).
        destruct (Z.compare_spec (15 * Z.pow_pos 2 p) (cond_Zopp s (Zpos m))) as [E|L|G];
          try discriminate;
        destruct (Z.compare_spec (22 * Z.pow_pos 2 p) (cond_Zopp s (Zpos m))) as [E'|L'|G'];
          try discriminate;
        destruct s; cbn [cond_Zopp] in *; try lia;
        (eexists; split; [|split; [reflexivity|reflexivity]]);
        cbn [hundredths]; apply div_half_even_bounds; rewrite Ep; lia.
    }
    exists k; split; [assumption|].
    split; [|rewrite <- Ek; apply hundredths_nearest].
    cbn [round2]; rewrite Ek.
    pose proof (dec2_in_range k Hk) as Hok; unfold dec2_ok in Hok.
    rewrite !andb_true_iff in Hok; destruct Hok as [[Hfin _] _].
    unfold checked; rewrite Hfin; reflexivity.
Qed.

Lemma random_written uniform data refresh min max (dr : nat -> spec_float) :
  (forall k, round2 (uniform k min max) = Ok (dr k)) ->
  forall n value j,
    let run := loop (random_body uniform data refresh min max) n (value, j) in
    written (nodeid data) (trace run) =
      take n (value :: ((fun i => VNum (PFloat (dr i))) <$> seq j n)) /\
    exists st, outcome run = Ok st.
Proof.
  intros Hdr; induction n as [|n IH]; intros value j run; subst run.
  - split; [reflexivity | eexists; reflexivity].
  - destruct (IH (VNum (PFloat (dr j))) (S j)) as [IHw [st IHo]].
    cbn [loop random_body].
    rewrite Hdr, bind_lift_ok.
    destruct (loop _ n (VNum (PFloat (dr j)), S j)) as [t r] eqn:El.
    cbn [bind emit ret trace outcome fst snd app] in *.
    rewrite El; cbn [trace outcome fst snd written app].
    rewrite Z.eqb_refl, IHw; split; [reflexivity | eauto].
Qed.

(** C5: against any random module that keeps [random.uniform(15, 22)]
    within [[15, 22]], the temperature task of [main] ([init=18.5],
    [min=15], [max=22]) writes, at every tick, a float between 15 and 22
    that is a decimal of two places read as a double; the first value is
    18.5 and the value written at tick [n >= 1] is the one drawn at tick
    [n - 1]: the decimal [k / 100] whose [k] is an integer nearest to a
    hundred times the raw draw of that tick, which is what
    [round(random.uniform(15, 22), 2)] returned there; a run of [m]
    iterations writes exactly the first [m] of these. *)
Theorem temp_task_writes_previous_draw
    (uniform : nat -> pynum -> pynum -> spec_float) (h : handles)
    (contract : forall k,
        py_le (PInt 15) (PFloat (uniform k (PInt 15) (PInt 22))) = true /\
        py_le (PFloat (uniform k (PInt 15) (PInt 22))) (PInt 22) = true) :
  (forall m, written (nodeid (temp_data h)) (trace (temp_task uniform h m)) =
             take m (VNum (PFloat (literal 185 10)) ::
                     ((fun k => VNum (PFloat (drawn uniform k))) <$> seq 0 m))) /\
  forall n, exists v,
    nth_write (nodeid (temp_data h)) (temp_task uniform h) n = Some (VNum (PFloat v)) /\
    py_le (PInt 15) (PFloat v) = true /\
    py_le (PFloat v) (PInt 22) = true /\
    (exists k : Z, v = dec2 false k) /\
    match n with
    | O => v = literal 185 10
    | S n' =>
        round2 (uniform n' (PInt 15) (PInt 22)) = Ok v /\
        exists k : Z,
          nearest_hundredths (uniform n' (PInt 15) (PInt 22)) k /\ v = dec2 false k
    end.
Proof.
  assert (Hdr : forall k, exists j, (1500 <= j <= 2200)%Z /\
            round2 (uniform k (PInt 15) (PInt 22)) = Ok (dec2 false j) /\
            nearest_hundredths (uniform k (PInt 15) (PInt 22)) j).
  { intros k; destruct (contract k); apply round2_in_range; assumption. }
  assert (Hdrawn : forall k, round2 (uniform k (PInt 15) (PInt 22)) = Ok (drawn uniform k)).
  { intros k; destruct (Hdr k) as (j & _ & E & _); unfold drawn; rewrite E; reflexivity. }
  split.
  { intros m; unfold temp_task, random_data.
    apply (random_written uniform (temp_data h) (PInt 10) (PInt 15) (PInt 22)
             (drawn uniform) Hdrawn m). }
  intros n; unfold nth_write, temp_task, random_data.
  destruct (random_written uniform (temp_data h) (PInt 10) (PInt 15) (PInt 22)
              (drawn uniform) Hdrawn (S n) (VNum (PFloat (literal 185 10))) 0) as [Hw _].
  rewrite Hw, lookup_take_lt by lia.
  destruct n as [|n'].
  - exists (literal 185 10); split; [reflexivity|].
    split; [vm_compute; reflexivity|].
    split; [vm_compute; reflexivity|].
    split; [exists 1850%Z; vm_compute; reflexivity | reflexivity].
  - exists (drawn uniform n').
    rewrite lookup_cons, list_lookup_fmap, lookup_seq_lt by lia.
    split; [reflexivity|].
    destruct (Hdr n') as (j & Hj & E & Hnear).
    assert (Ed : drawn uniform n' = dec2 false j) by (unfold drawn; rewrite E; reflexivity).
    pose proof (dec2_in_range j Hj) as Hok; unfold dec2_ok in Hok.
    rewrite !andb_true_iff in Hok; destruct Hok as [[_ Hlo] Hhi].
    rewrite Ed; repeat split; try assumption.
    + exists j; reflexivity.
    + exists j; split; [assumption | reflexivity].
Qed.

(** With a random module that returns 15.0 and 21.99 in turn, the third
    value written is 21.99, the draw of the tick before. *)
Lemma temp_task_writes_previous_draw_witness :
  nth_write (nodeid (temp_data sample_handles))
            (temp_task sample_uniform sample_handles) 2 =
    Some (VNum (PFloat (literal 2199 100))) /\
  nearest_hundredths (sample_uniform 1 (PInt 15) (PInt 22)) 2199 /\
  literal 2199 100 = dec2 false 2199.
Proof.
  assert (contract : forall k,
    py_le (PInt 15) (PFloat (sample_uniform k (PInt 15) (PInt 22))) = true /\
    py_le (PFloat (sample_uniform k (PInt 15) (PInt 22))) (PInt 22) = true).
  { intros k; unfold sample_uniform; destruct (Nat.even k); split; vm_compute; reflexivity. }
  destruct (proj2 (temp_task_writes_previous_draw sample_uniform sample_handles contract) 2)
    as (v & Hw & _ & _ & _ & Hr & _).
  vm_compute in Hr; injection Hr as <-.
  split; [exact Hw|].
  split; [vm_compute; discriminate | vm_compute; reflexivity].
Defined.

(** ** The set-up of the triangular wave: division by zero *)

Lemma truediv_by_zero x y :
  num_is_zero y = true -> exists e, py_truediv x y = Raise e.
Proof.
  destruct x as [a|f], y as [b|g]; cbn [num_is_zero]; intros Hz.
  - apply Z.eqb_eq in Hz; subst b; exists ZeroDivisionError; reflexivity.
  - unfold py_truediv; cbn [to_float].
    destruct (checked (Z2F a)); cbn [rbind]; [rewrite Hz|]; eauto.
  - apply Z.eqb_eq in Hz; subst b; eexists; reflexivity.
  - unfold py_truediv; cbn [to_float rbind]; rewrite Hz; eauto.
Qed.

Lemma truediv_float_by_zero f g :
  is_zero g = true -> py_truediv (PFloat f) (PFloat g) = Raise ZeroDivisionError.
Proof. intros Hz; unfold py_truediv; cbn [to_float rbind]; rewrite Hz; reflexivity. Qed.

Lemma fsub_diag f : is_finite f = true -> fsub f f = S754_zero false.
Proof.
  destruct f as [s|s| |s m e]; try discriminate; intros _.
  - destruct s; reflexivity.
  - unfold fsub, SFsub; rewrite Z.sub_diag; reflexivity.
Qed.

Lemma fdiv_zero_l z g :
  is_zero z = true -> is_zero g = false -> is_nan g = false ->
  is_zero (fdiv z g) = true.
Proof.
  destruct z; try discriminate; destruct g; try discriminate; reflexivity.
Qed.

Lemma checked_ok f g : checked f = Ok g -> g = f /\ is_finite f = true.
Proof.
  unfold checked; destruct (is_finite f) eqn:E; [|discriminate].
  intros [= <-]; split; reflexivity.
Qed.

Lemma is_finite_not_nan f : is_finite f = true -> is_nan f = false.
Proof. destruct f; try discriminate; reflexivity. Qed.

(** Zero divided by a number that is not a NaN raises, or is zero. *)
Lemma truediv_zero_l x step :
  x = PInt 0 \/ (exists z, x = PFloat z /\ is_zero z = true) ->
  num_is_nan step = false ->
  (exists e, py_truediv x step = Raise e) \/
  (exists z', py_truediv x step = Ok (PFloat z') /\ is_zero z' = true).
Proof.
  intros Hx Hnan.
  assert (exists z, to_float x = Ok z /\ is_zero z = true) as (z & Hz & Zz).
  { destruct Hx as [->|(z & -> & Zz)]; [exists (S754_zero false)|exists z]; split;
      reflexivity || assumption. }
  destruct step as [b|g].
  - destruct Hx as [->|(z0 & -> & Zz0)].
    + destruct b; [left; eexists; reflexivity | right .. ];
        eexists; split; reflexivity.
    + unfold py_truediv; cbn [to_float rbind].
      destruct (checked (Z2F b)) as [g|e] eqn:Eg; cbn [rbind]; [|left; eauto].
      apply checked_ok in Eg as [-> Hfin].
      destruct (is_zero (Z2F b)) eqn:Zb; [left; eauto|].
      right; eexists; split; [reflexivity|].
      apply fdiv_zero_l; auto using is_finite_not_nan.
  - cbn [num_is_nan] in Hnan.
    assert (py_truediv x (PFloat g) =
            if is_zero g then Raise ZeroDivisionError else Ok (PFloat (fdiv z g))) as ->.
    { destruct Hx as [->|(z0 & -> & _)]; unfold py_truediv; rewrite Hz; reflexivity. }
    destruct (is_zero g) eqn:Zg; [left; eauto|].
    right; eexists; split; [reflexivity|].
    apply fdiv_zero_l; assumption.
Qed.

(** ** Integers that are binary64 values convert exactly *)

Lemma digits_iter_xO m k :
  digits2_pos (Pos.iter xO m k) = (digits2_pos m + k)%positive.
Proof.
  induction k as [|k IH] using Pos.peano_ind.
  - cbn; lia.
  - rewrite Pos.iter_succ; cbn [digits2_pos]; rewrite IH; lia.
Qed.

Lemma iter_xO_value m k : Zpos (Pos.iter xO m k) = (Zpos m * Z.pow_pos 2 k)%Z.
Proof.
  change (Pos.iter xO m k) with (shift_pos k m).
  rewrite shift_pos_correct; lia.
Qed.

Lemma shr_exact p : forall m,
  SpecFloat.iter_pos shr_1 p {| shr_m := Zpos (Pos.iter xO m p); shr_r := false; shr_s := false |} =
  {| shr_m := Zpos m; shr_r := false; shr_s := false |}.
Proof.
  induction p as [p IH|p IH|]; intros m; cbn [SpecFloat.iter_pos Pos.iter].
  - cbn [shr_1 orb]. rewrite !IH; reflexivity.
  - rewrite !IH; reflexivity.
  - reflexivity.
Qed.

Lemma binary_round_aux_id s m e :
  fexp prec emax (Zpos (digits2_pos m) + e) = e -> (e <= 971)%Z ->
  binary_round_aux prec emax s (Zpos m) e loc_Exact = S754_finite s m e.
Proof.
  intros Hc He.
  unfold binary_round_aux, shr_fexp.
  cbn [Zdigits2 shr_record_of_loc]; rewrite Hc, Z.sub_diag.
  cbn [shr shr_m loc_of_shr_record round_nearest_even Zdigits2 shr_record_of_loc].
  rewrite Hc, Z.sub_diag; cbn [shr shr_m].
  replace (e <=? emax - prec)%Z with true; [reflexivity|].
  symmetry; apply Z.leb_le; unfold emax, prec; lia.
Qed.

Lemma fexp_eq x : fexp prec emax x = Z.max (x - 53) (-1074).
Proof. reflexivity. Qed.

Lemma shl_align_same m : shl_align m 0 0 = (m, 0%Z).
Proof. reflexivity. Qed.

Lemma shl_align_up m p : shl_align m 0 (Zpos p) = (m, 0%Z).
Proof. reflexivity. Qed.

Lemma shl_align_down m p : shl_align m 0 (Zneg p) = (Pos.iter xO m p, Zneg p).
Proof. reflexivity. Qed.

Lemma binary_round_exp0 s m :
  digits2_pos m = 53%positive ->
  binary_round prec emax s m 0 = S754_finite s m 0.
Proof.
  intros Hd; unfold binary_round.
  rewrite Hd; change (fexp prec emax (53 + 0)) with 0%Z.
  rewrite shl_align_same.
  apply binary_round_aux_id; [rewrite Hd; reflexivity | lia].
Qed.

Lemma binary_round_shifted s m p :
  digits2_pos m = 53%positive -> (Zpos p <= 971)%Z ->
  binary_round prec emax s (Pos.iter xO m p) 0 = S754_finite s m (Zpos p).
Proof.
  intros Hd Hp; unfold binary_round.
  rewrite digits_iter_xO, Hd.
  assert (Hf : fexp prec emax (Zpos (53 + p) + 0) = Zpos p) by (rewrite fexp_eq; lia).
  rewrite Hf, shl_align_up.
  unfold binary_round_aux, shr_fexp at 1.
  cbn [Zdigits2 shr_record_of_loc]; rewrite digits_iter_xO, Hd, Hf.
  replace (Zpos p - 0)%Z with (Zpos p) by lia.
  cbn [shr]; rewrite shr_exact.
  cbn [shr_m loc_of_shr_record round_nearest_even].
  unfold shr_fexp; cbn [Zdigits2 shr_record_of_loc]; rewrite Hd.
  change (0 + Z.pos p)%Z with (Z.pos p).
  replace (fexp prec emax (53 + Zpos p) - Zpos p)%Z with 0%Z by (rewrite fexp_eq; lia).
  cbn [shr shr_m].
  replace (Zpos p <=? emax - prec)%Z with true; [reflexivity|].
  symmetry; apply Z.leb_le; unfold emax, prec; lia.
Qed.

Lemma binary_round_scaled s P p :
  digits2_pos (Pos.iter xO P p) = 53%positive ->
  binary_round prec emax s P 0 = S754_finite s (Pos.iter xO P p) (Zneg p).
Proof.
  intros Hd; unfold binary_round.
  rewrite digits_iter_xO in Hd.
  assert (Hf : fexp prec emax (Zpos (digits2_pos P) + 0) = Zneg p) by (rewrite fexp_eq; lia).
  rewrite Hf, shl_align_down.
  apply binary_round_aux_id; [rewrite digits_iter_xO, fexp_eq; lia | lia].
Qed.

(** An integer equal to a binary64 value converts to that very float. *)
Lemma Z2F_exact z s m e :
  bounded prec emax m e = true ->
  compare_int_float z (S754_finite s m e) = Some Eq ->
  Z2F z = S754_finite s m e.
Proof.
  unfold bounded, canonical_mantissa; rewrite andb_true_iff, Z.eqb_eq, Z.leb_le.
  rewrite fexp_eq; unfold emax, prec; intros [Hc He] Hcmp.
  destruct e as [|p|p]; cbn [compare_int_float] in Hcmp;
    injection Hcmp as Hcmp; apply Z.compare_eq in Hcmp.
  - assert (Hd : digits2_pos m = 53%positive) by lia.
    assert (z = cond_Zopp s (Zpos m)) as -> by lia.
    destruct s; apply binary_round_exp0; assumption.
  - assert (Hd : digits2_pos m = 53%positive) by lia.
    rewrite <- Z.pow_pos_fold, <- (Z.mul_comm (Z.pow_pos 2 p)) in Hcmp.
    assert (z = cond_Zopp s (Zpos (Pos.iter xO m p))) as ->.
    { rewrite iter_xO_value; destruct s; cbn [cond_Zopp] in *; lia. }
    destruct s; apply binary_round_shifted; assumption || lia.
  - assert (exists P, z = cond_Zopp s (Zpos P) /\ Pos.iter xO P p = m) as (P & -> & <-).
    { pose proof (Pos2Z.inj_pow_pos 2 p) as Ep.
      assert (0 < Z.pow_pos 2 p)%Z by (rewrite <- Ep; lia).
      exists (Z.to_pos (Z.abs z)).
      assert (0 < Z.abs z)%Z by (destruct s; cbn [cond_Zopp] in *; nia).
      split.
      - destruct s; cbn [cond_Zopp] in *; rewrite Z2Pos.id by lia; nia.
      - apply Pos2Z.inj; rewrite iter_xO_value, Z2Pos.id by lia.
        destruct s; cbn [cond_Zopp] in *; nia. }
    rewrite digits_iter_xO in Hc.
    assert (Hd : digits2_pos (Pos.iter xO P p) = 53%positive).
    { rewrite digits_iter_xO; lia. }
    destruct s; apply binary_round_scaled; assumption.
Qed.

Lemma fsub_zeros s s' : is_zero (fsub (S754_zero s) (S754_zero s')) = true.
Proof. destruct s, s'; reflexivity. Qed.

Lemma fcompare_eq_finite f g :
  is_finite f = true -> is_finite g = true -> fcompare f g = Some Eq ->
  is_zero (fsub f g) = true.
Proof.
  destruct f as [s|s| |s m e], g as [s'|s'| |s' m' e']; try discriminate; intros _ _.
  - intros _; apply fsub_zeros.
  - destruct s'; discriminate.
  - destruct s; discriminate.
  - unfold fcompare, SFcompare.
    destruct s, s'; try discriminate;
      destruct (Z.compare_spec e e') as [->| |]; try discriminate;
      intros [= H];
      [apply (f_equal CompOpp) in H; rewrite CompOpp_involutive in H; cbn in H|];
      apply Pos.compare_eq in H; subst m';
      rewrite (fsub_diag (S754_finite _ m e')); reflexivity.
Qed.

Lemma compare_eq_sub a g :
  is_finite g = true -> valid_binary prec emax g = true ->
  compare_int_float a g = Some Eq ->
  exists fa, checked (Z2F a) = Ok fa /\
             is_zero (fsub fa g) = true /\ is_zero (fsub g fa) = true.
Proof.
  destruct g as [s|s| |s m e]; try discriminate; intros _ Hv Hc.
  - cbn in Hc; injection Hc as Hc; apply Z.compare_eq in Hc; subst a.
    exists (S754_zero false); repeat split; destruct s; reflexivity.
  - rewrite (Z2F_exact a s m e Hv Hc).
    exists (S754_finite s m e); repeat split;
      rewrite (fsub_diag (S754_finite s m e)); reflexivity.
Qed.

Lemma equal_bounds_sub max min :
  num_eqb max min = true ->
  num_is_finite max = true -> num_is_finite min = true ->
  num_valid max = true -> num_valid min = true ->
  exists i, py_sub max min = Ok i /\
            (i = PInt 0 \/ exists z, i = PFloat z /\ is_zero z = true).
Proof.
  unfold num_eqb; destruct max as [a|f], min as [b|g];
    cbn [py_compare num_is_finite num_valid]; intros Heq Hfmax Hfmin Hvmax Hvmin.
  - destruct (Z.compare_spec a b); try discriminate; subst b.
    exists (PInt 0); cbn [py_sub]; rewrite Z.sub_diag; split; [reflexivity | left; reflexivity].
  - destruct (compare_int_float a g) as [[]|] eqn:Hc; try discriminate.
    destruct (compare_eq_sub a g Hfmin Hvmin Hc) as (fa & Hfa & Hz & _).
    unfold py_sub; cbn [to_float]; rewrite Hfa; cbn [rbind].
    eexists; split; [reflexivity|]; right; eexists; split; [reflexivity | assumption].
  - destruct (compare_int_float b f) as [[]|] eqn:Hc; try discriminate.
    destruct (compare_eq_sub b f Hfmax Hvmax Hc) as (fb & Hfb & _ & Hz).
    unfold py_sub; cbn [to_float]; rewrite Hfb; cbn [rbind].
    eexists; split; [reflexivity|]; right; eexists; split; [reflexivity | assumption].
  - unfold py_sub; cbn [to_float rbind].
    destruct (fcompare f g) as [[]|] eqn:Hc; try discriminate.
    eexists; split; [reflexivity|]; right; eexists; split; [reflexivity|].
    apply fcompare_eq_finite; assumption.
Qed.

(** Equal finite bounds, of whatever types, leave a zero interval and
    so a division by zero. *)
Lemma cyclic_refresh_equal cycle_time step min max :
  num_eqb max min = true ->
  num_is_finite max = true -> num_is_finite min = true ->
  num_valid max = true -> num_valid min = true ->
  num_is_nan step = false ->
  exists e, cyclic_refresh cycle_time step min max = Raise e.
Proof.
  intros Heq Hfmax Hfmin Hvmax Hvmin Hnan; unfold cyclic_refresh.
  destruct (equal_bounds_sub max min Heq Hfmax Hfmin Hvmax Hvmin) as (i & -> & Hi).
  cbn [rbind].
  destruct (truediv_zero_l i step Hi Hnan) as [[e ->]|(z' & -> & Zz')]; [eauto|].
  cbn [rbind]; apply truediv_by_zero; assumption.
Qed.

Lemma cyclic_refresh_equal_bounds cycle_time step x :
  num_is_finite x = true -> num_is_nan step = false ->
  exists e, cyclic_refresh cycle_time step x x = Raise e.
Proof.
  intros Hfin Hnan; unfold cyclic_refresh.
  assert (exists i, py_sub x x = Ok i /\
            (i = PInt 0 \/ exists z, i = PFloat z /\ is_zero z = true)) as (i & -> & Hi).
  { destruct x as [a|f]; cbn [py_sub to_float rbind].
    - exists (PInt 0); rewrite Z.sub_diag; auto.
    - rewrite fsub_diag by assumption; eexists; split; [reflexivity|].
      right; eexists; split; reflexivity. }
  cbn [rbind].
  destruct (truediv_zero_l i step Hi Hnan) as [[e ->]|(z' & -> & Zz')]; [eauto|].
  cbn [rbind]; apply truediv_by_zero; assumption.
Qed.

Lemma cyclic_refresh_floats c s lo hi :
  cyclic_refresh (PFloat c) (PFloat s) (PFloat lo) (PFloat hi) =
  if is_zero s || is_zero (fdiv (fsub hi lo) s)
  then Raise ZeroDivisionError
  else Ok (PFloat (fdiv c (fdiv (fsub hi lo) s))).
Proof.
  unfold cyclic_refresh, py_sub, py_truediv; cbn [to_float rbind].
  destruct (is_zero s); [reflexivity|]; cbn [rbind orb to_float].
  destruct (is_zero (fdiv (fsub hi lo) s)); reflexivity.
Qed.

(** C10, as the claim has it, fails: with [step=1e200], [min=0] and
    [max=1e-200] the step is not zero and the bounds differ, yet the
    quotient [(max - min) / step] rounds to [0.0] and the division of
    [cycle_time] by it raises [ZeroDivisionError]. *)
Lemma cyclic_precondition_not_sufficient :
  let step := PFloat float_1e200 in
  let min := PInt 0 in
  let max := PFloat float_1em200 in
  ~ (num_is_zero step = false -> num_eqb max min = false ->
     exists refresh, cyclic_refresh (PInt 1) step min max = Ok refresh).
Proof.
  intros step min max H.
  destruct H as [refresh H]; [reflexivity | reflexivity |].
  vm_compute in H; discriminate.
Qed.

(** C10, amended: [cyclic_data] computes its sleep interval as
    [cycle_time / ((max - min) / step)] before its first write, so an
    exception raised there leaves no value written.  It does raise there
    when [step] is zero, and when [max == min] with both finite and
    [step] not a NaN, whatever the types of the two bounds (the floats
    being binary64 values); on floats the exception is
    [ZeroDivisionError].  A non-zero step and distinct bounds are not
    enough for success: on float arguments the computation succeeds
    exactly when [step] is not zero and the rounded quotient
    [(max - min) / step] is not zero.  For the arguments of [main] it
    succeeds, with an interval of 0.5. *)
Theorem cyclic_data_interval :
  (forall data cycle_time step init min max n e,
      cyclic_refresh cycle_time step min max = Raise e ->
      cyclic_data data cycle_time step init min max n = ([], Raise e)) /\
  (forall cycle_time step min max,
      num_is_zero step = true ->
      exists e, cyclic_refresh cycle_time step min max = Raise e) /\
  (forall cycle_time step min max,
      num_eqb max min = true ->
      num_is_finite max = true -> num_is_finite min = true ->
      num_valid max = true -> num_valid min = true ->
      num_is_nan step = false ->
      exists e, cyclic_refresh cycle_time step min max = Raise e) /\
  (forall c s lo hi,
      cyclic_refresh (PFloat c) (PFloat s) (PFloat lo) (PFloat hi) =
      if is_zero s || is_zero (fdiv (fsub hi lo) s)
      then Raise ZeroDivisionError
      else Ok (PFloat (fdiv c (fdiv (fsub hi lo) s)))) /\
  (forall c s lo hi,
      fcompare hi lo = Some Eq ->
      is_finite hi = true -> is_finite lo = true -> is_nan s = false ->
      cyclic_refresh (PFloat c) (PFloat s) (PFloat lo) (PFloat hi) = Raise ZeroDivisionError) /\
  cyclic_refresh (PInt 200) (PFloat (literal 5 10)) (PInt (-100)) (PInt 100) =
    Ok (PFloat (literal 5 10)).
Proof.
  split; [|split; [|split; [|split; [|split]]]].
  - intros data cycle_time step init min max n e H.
    unfold cyclic_data; rewrite H; reflexivity.
  - intros cycle_time step min max Hz; unfold cyclic_refresh.
    destruct (py_sub max min) as [interval|e]; cbn [rbind]; [|eauto].
    destruct (truediv_by_zero interval step Hz) as [e ->]; eauto.
  - apply cyclic_refresh_equal.
  - apply cyclic_refresh_floats.
  - intros c s lo hi Heq Hhi Hlo Hnan.
    rewrite cyclic_refresh_floats.
    pose proof (fcompare_eq_finite hi lo Hhi Hlo Heq) as Hz.
    destruct (is_zero s) eqn:Zs; [reflexivity|].
    rewrite fdiv_zero_l by assumption; reflexivity.
  - vm_compute; reflexivity.
Qed.

(** The theorem at work: a zero step; the bounds 7 and 7.0; the bounds
    0.0 and -0.0. *)
Lemma cyclic_data_interval_witness :
  cyclic_data {| nodeid := 1 |} (PInt 1) (PInt 0) (PInt 0) (PInt 0) (PInt 100) 3
    = ([], Raise ZeroDivisionError) /\
  (exists e, cyclic_refresh (PInt 1) (PFloat (S754_zero true)) (PInt 0) (PInt 100) = Raise e) /\
  (exists e, cyclic_refresh (PInt 1) (PFloat (literal 5 10)) (PFloat (Z2F 7)) (PInt 7) = Raise e) /\
  (exists e, cyclic_refresh (PInt 1) (PFloat (literal 5 10)) (PInt 7) (PFloat (Z2F 7)) = Raise e) /\
  cyclic_refresh (PFloat (Z2F 1)) (PFloat (literal 5 10))
                 (PFloat (S754_zero true)) (PFloat (S754_zero false))
    = Raise ZeroDivisionError.
Proof.
  destruct cyclic_data_interval as (P1 & P2 & P3 & _ & P5 & _).
  split; [|split; [|split; [|split]]].
  - apply P1; reflexivity.
  - apply P2; reflexivity.
  - apply P3; reflexivity.
  - apply P3; reflexivity.
  - apply P5; reflexivity.
Defined.

(* ================================================================== *)
(** * Part III: further properties of the code                         *)
(* ================================================================== *)

(** ** [toggle_data] on any initial value *)

Lemma toggle_written_any data refresh (init : pyval) m :
  written (nodeid data) (trace (toggle_data data refresh init m)) =
  take m (init :: ((fun k => VBool (xorb (negb (truthy init)) (k mod 2 =? 1)))
                     <$> seq 0 m)).
Proof.
  destruct m as [|m]; [reflexivity|].
  rewrite toggle_data_S; cbn [trace fst written].
  rewrite Z.eqb_refl, toggle_written.
  cbn [take]; f_equal.
  rewrite seq_S, fmap_app, take_app_length'; [reflexivity|].
  rewrite length_fmap, length_seq; reflexivity.
Qed.

(** X1: [toggle_data] does not convert its initial value: whatever
    Python value [init] is, a first value written is [init] unchanged,
    and any later value written is a boolean: [not init] for the second
    write, and alternating from there. *)
Theorem toggle_data_any_init data refresh (init : pyval) (m k : nat) (v : pyval) :
  written (nodeid data) (trace (toggle_data data refresh init m)) !! k = Some v ->
  v = match k with
      | O => init
      | S j => VBool (xorb (negb (truthy init)) (j mod 2 =? 1))
      end.
Proof.
  rewrite toggle_written_any; intros H.
  apply lookup_take_Some in H as [H _].
  destruct k as [|j]; [injection H as <-; reflexivity|].
  rewrite lookup_cons, list_lookup_fmap in H.
  destruct (seq 0 m !! j) as [i|] eqn:Ei; [|discriminate].
  apply lookup_seq in Ei as [-> _].
  injection H as <-; reflexivity.
Qed.

Lemma toggle_data_any_init_witness :
  VBool false =
  VBool (xorb (negb (truthy (VNum (PInt 0)))) (1 mod 2 =? 1)).
Proof.
  apply (toggle_data_any_init {| nodeid := 1 |} (PInt 10) (VNum (PInt 0)) 3 2).
  reflexivity.
Defined.

(** ** [periodic_data] on ints and on floats *)

(** X2: on Python ints [periodic_data] is exact for every [init] and
    [increment]: any value it writes as its [k]-th is the int
    [init + k * increment] (an int, not a float, and with no
    overflow). *)
Theorem periodic_data_on_ints data refresh (init increment : Z) (m k : nat) (v : pyval) :
  written (nodeid data)
    (trace (periodic_data data refresh (PInt init) (PInt increment) m)) !! k = Some v ->
  v = VNum (PInt (init + Z.of_nat k * increment)).
Proof.
  rewrite periodic_written_int, list_lookup_fmap; intros H.
  destruct (seq 0 m !! k) as [i|] eqn:Ei; [|discriminate].
  apply lookup_seq in Ei as [-> _].
  injection H as <-; reflexivity.
Qed.

Lemma periodic_data_on_ints_witness :
  VNum (PInt 13) = VNum (PInt (7 + Z.of_nat 2 * 3)).
Proof.
  apply (periodic_data_on_ints {| nodeid := 1 |} (PInt 5) 7 3 4 2).
  reflexivity.
Defined.

Lemma periodic_data_S data refresh value increment n :
  periodic_data data refresh value increment (S n) =
  match py_add value increment with
  | Ok value' =>
      (WriteValue data (VNum value) :: Sleep refresh ::
         trace (periodic_data data refresh value' increment n),
       outcome (periodic_data data refresh value' increment n))
  | Raise e => ([WriteValue data (VNum value); Sleep refresh], Raise e)
  end.
Proof.
  unfold periodic_data; cbn [loop]; unfold periodic_body.
  destruct (py_add value increment) as [value'|e]; [|reflexivity].
  unfold lift, emit, bind; cbn [app].
  destruct (loop _ n value') as [t r]; reflexivity.
Qed.

Lemma periodic_written_float data refresh (a inc : spec_float) n :
  written (nodeid data) (trace (periodic_data data refresh (PFloat a) (PFloat inc) n)) =
    (fun k => VNum (PFloat (Nat.iter k (fun v => fadd v inc) a))) <$> seq 0 n.
Proof.
  revert a; induction n as [|n IH]; intros a; [reflexivity|].
  rewrite periodic_data_S; cbn [py_add to_float rbind trace outcome fst snd written].
  rewrite Z.eqb_refl, IH.
  assert (E : forall k, Nat.iter k (fun v => fadd v inc) (fadd a inc) =
                        Nat.iter (S k) (fun v => fadd v inc) a).
  { intros k; symmetry; exact (Nat.iter_succ_r k (fun v => fadd v inc) a). }
  cbn [seq fmap list_fmap].
  rewrite <- fmap_S_seq, <- list_fmap_compose; f_equal.
  apply list_fmap_ext; intros _ k _; unfold compose; rewrite E; reflexivity.
Qed.

(** X3: on floats, any value [periodic_data] writes as its [k]-th is
    [init] with [increment] added [k] times in binary64, rounded at
    every step (not [init + k * increment] rounded once); the additions
    themselves never raise, a sum beyond the double range being an
    infinity. *)
Theorem periodic_data_on_floats data refresh (init increment : spec_float)
    (m k : nat) (v : pyval) :
  written (nodeid data)
    (trace (periodic_data data refresh (PFloat init) (PFloat increment) m)) !! k = Some v ->
  v = VNum (PFloat (Nat.iter k (fun x => fadd x increment) init)) /\
  exists next, py_add (PFloat (Nat.iter k (fun x => fadd x increment) init))
                      (PFloat increment) = Ok (PFloat next).
Proof.
  rewrite periodic_written_float, list_lookup_fmap; intros H.
  destruct (seq 0 m !! k) as [i|] eqn:Ei; [|discriminate].
  apply lookup_seq in Ei as [-> _].
  injection H as <-; split; [reflexivity | eexists; reflexivity].
Qed.

Lemma periodic_data_on_floats_witness :
  VNum (PFloat (S754_infinity false)) =
    VNum (PFloat (Nat.iter 1 (fun x => fadd x (Z2F (2 ^ 1023))) (Z2F (2 ^ 1023)))) /\
  exists next, py_add (PFloat (Nat.iter 1 (fun x => fadd x (Z2F (2 ^ 1023))) (Z2F (2 ^ 1023))))
                      (PFloat (Z2F (2 ^ 1023))) = Ok (PFloat next).
Proof.
  apply (periodic_data_on_floats {| nodeid := 1 |} (PInt 5)
           (Z2F (2 ^ 1023)) (Z2F (2 ^ 1023)) 3 1).
  vm_compute; reflexivity.
Defined.

(** ** Pacing: every write is followed by its sleep *)

Lemma loop_paced {S} data refresh (body : S -> M S) :
  (forall s, (exists v, trace (body s) = [WriteValue data v; Sleep refresh]) \/
             (trace (body s) = [] /\ exists e, outcome (body s) = Raise e)) ->
  forall n s, well_paced data refresh n (trace (loop body n s)).
Proof.
  intros Hbody; induction n as [|n IH]; intros s.
  - exists []; split; [reflexivity | reflexivity].
  - cbn [loop]; rewrite trace_bind.
    destruct (Hbody s) as [[v Hv]|[Ht [e He]]].
    + rewrite Hv; destruct (outcome (body s)) as [a|e].
      * destruct (IH a) as (vs & Hle & Hpre).
        exists (v :: vs); split; [cbn [length]; lia|].
        cbn [paced flat_map app]; do 2 apply prefix_cons; exact Hpre.
      * exists [v]; split; [cbn [length]; lia | reflexivity].
    + rewrite Ht, He; exists []; split; [cbn [length]; lia | reflexivity].
Qed.

(** X4: each of the four generators paces itself: its trace, and so
    every initial part of it, is an initial part of a sequence of at
    most [n] writes to [data] (for [n] iterations), each followed at once
    by a sleep of the same length, [refresh], or for [cyclic_data] the
    interval computed before the loop.  So two writes are never issued
    without a sleep between them, and [cyclic_data] issues nothing at
    all when the computation of the interval raises. *)
Theorem generators_write_then_sleep (data : Node) (n : nat) :
  (forall refresh init,
      well_paced data refresh n (trace (toggle_data data refresh init n))) /\
  (forall refresh init increment,
      well_paced data refresh n (trace (periodic_data data refresh init increment n))) /\
  (forall uniform refresh init min max,
      well_paced data refresh n (trace (random_data uniform data refresh init min max n))) /\
  (forall cycle_time step init min max,
      match cyclic_refresh cycle_time step min max with
      | Raise e => cyclic_data data cycle_time step init min max n = ([], Raise e)
      | Ok refresh =>
          well_paced data refresh n (trace (cyclic_data data cycle_time step init min max n))
      end).
Proof.
  split; [|split; [|split]].
  - intros refresh init; apply loop_paced.
    intros s; left; eexists; reflexivity.
  - intros refresh init increment; apply loop_paced.
    intros s; left; exists (VNum s); unfold periodic_body.
    rewrite !trace_bind; cbn; destruct (py_add s increment); reflexivity.
  - intros uniform refresh init min max; apply loop_paced.
    intros [value k]; left; exists value; unfold random_body.
    rewrite !trace_bind; cbn.
    destruct (round2 (uniform k min max)); reflexivity.
  - intros cycle_time step init min max; unfold cyclic_data.
    destruct (cyclic_refresh cycle_time step min max) as [refresh|e]; [|reflexivity].
    rewrite bind_lift_ok; apply loop_paced.
    intros [value inc]; unfold cyclic_body; cbn [fst].
    destruct (to_float value) as [d|e] eqn:Ed.
    + left; exists (VNum (PFloat d)).
      rewrite bind_lift_ok, !trace_bind; cbn.
      destruct (cyclic_advance step min max (value, inc)); reflexivity.
    + right; split; [reflexivity | eexists; reflexivity].
Qed.

(** ** [cyclic_data] writes doubles *)

Lemma loop_Forall {S} (P : event -> Prop) (body : S -> M S) :
  (forall s, Forall P (trace (body s))) ->
  forall n s, Forall P (trace (loop body n s)).
Proof.
  intros Hbody; induction n as [|n IH]; intros s; cbn [loop].
  - constructor.
  - rewrite trace_bind; apply Forall_app; split; [apply Hbody|].
    destruct (outcome (body s)); [apply IH | constructor].
Qed.

Lemma Forall_writes (Q : Z * pyval -> Prop) (t : list event) :
  Forall (fun ev => match ev with
                    | WriteValue target v => Q (nodeid target, v)
                    | WriteAttributeValue id v => Q (id, v)
                    | _ => True
                    end) t ->
  Forall Q (writes t).
Proof.
  induction 1 as [|ev t Hev _ IH]; [constructor|].
  destruct ev; cbn; try assumption; constructor; assumption.
Qed.

(** X5: [cyclic_data] passes every value through [ua.Double]: whatever
    the types of its arguments (an int [init], int bounds), every value
    it writes is a float. *)
Theorem cyclic_data_writes_floats data cycle_time step init min max n :
  Forall (fun w => is_float_val w.2 = true)
         (writes (trace (cyclic_data data cycle_time step init min max n))).
Proof.
  unfold cyclic_data.
  destruct (cyclic_refresh cycle_time step min max) as [refresh|e]; [|constructor].
  rewrite bind_lift_ok.
  apply Forall_writes, loop_Forall; intros [value inc]; unfold cyclic_body; cbn [fst].
  destruct (to_float value) as [d|e]; [|constructor].
  rewrite bind_lift_ok, !trace_bind; cbn.
  destruct (cyclic_advance step min max (value, inc)); repeat constructor.
Qed.

(** ** [cyclic_data] on ints: the band *)

Lemma loop_Forall_inv {S} (I : S -> Prop) (P : event -> Prop) (body : S -> M S) :
  (forall s, I s -> Forall P (trace (body s)) /\
                    forall s', outcome (body s) = Ok s' -> I s') ->
  forall n s, I s -> Forall P (trace (loop body n s)).
Proof.
  intros Hbody; induction n as [|n IH]; intros s Hs; cbn [loop].
  - constructor.
  - destruct (Hbody s Hs) as [Ht Hnext].
    rewrite trace_bind; apply Forall_app; split; [assumption|].
    destruct (outcome (body s)) as [s'|e]; [|constructor].
    apply IH, Hnext; reflexivity.
Qed.

Lemma cyclic_advance_int (step min max v : Z) inc :
  (0 <= step)%Z -> (min <= max)%Z -> (min - step <= v <= max + step)%Z ->
  exists v' inc',
    cyclic_advance (PInt step) (PInt min) (PInt max) (PInt v, inc) = Ok (PInt v', inc') /\
    (min - step <= v' <= max + step)%Z /\
    (v' = v + step \/ v' = v - step)%Z.
Proof.
  intros Hstep Hb Hv.
  unfold cyclic_advance, cyclic_direction, py_ge, py_le, py_compare.
  destruct (Z.compare_spec v max), (Z.compare_spec v min), inc;
    cbn [py_add py_sub rbind];
    eexists _, _; (split; [reflexivity|]); lia.
Qed.

(** X6: on int arguments with [0 <= step], [min <= max] and [init]
    within one step of the bounds, every value [cyclic_data] writes is
    the double of an int between [min - step] and [max + step]: the
    value may pass a bound by up to one step and is never clamped, but
    it never gets further out.  The overshoot does happen: with
    [min=0], [max=10], [step=3], [init=0] the fifth value written is
    12.0. *)
Theorem cyclic_data_int_band :
  (forall data cycle_time (step init min max : Z) n,
      (0 <= step)%Z -> (min <= max)%Z -> (min - step <= init <= max + step)%Z ->
      Forall (fun w => exists v, w.2 = VNum (PFloat (Z2F v)) /\
                                 (min - step <= v <= max + step)%Z)
             (writes (trace (cyclic_data data cycle_time (PInt step) (PInt init)
                                         (PInt min) (PInt max) n)))) /\
  (forall data,
      nth_write (nodeid data)
        (cyclic_data data (PInt 1) (PInt 3) (PInt 0) (PInt 0) (PInt 10)) 4 =
      Some (VNum (PFloat (Z2F 12)))).
Proof.
  split.
  - intros data cycle_time step init min max n Hstep Hb Hinit.
    unfold cyclic_data.
    destruct (cyclic_refresh _ _ _ _) as [refresh|e]; [|constructor].
    rewrite bind_lift_ok.
    apply Forall_writes.
    apply loop_Forall_inv with
      (I := fun st => exists v, st.1 = PInt v /\ (min - step <= v <= max + step)%Z);
      [|exists init; split; [reflexivity | assumption]].
    intros [value inc] (v & Ev & Hv); cbn [fst] in Ev; subst value.
    destruct (cyclic_advance_int step min max v inc Hstep Hb Hv)
      as (v' & inc' & Eadv & Hv' & _).
    unfold cyclic_body; cbn [fst to_float].
    destruct (checked (Z2F v)) as [d|e] eqn:Ed.
    + apply checked_ok in Ed as [-> _].
      rewrite bind_lift_ok, !trace_bind, !outcome_bind, Eadv; cbn.
      rewrite Z.eqb_refl || idtac.
      split.
      * repeat constructor; exists v; split; [reflexivity | assumption].
      * intros s' [= <-]; exists v'; split; [reflexivity | assumption].
    + split; [constructor | discriminate].
  - intros data; unfold nth_write.
    set (t := trace _); vm_compute in t; subst t.
    cbn [written]; rewrite !Z.eqb_refl; reflexivity.
Qed.

Lemma cyclic_data_int_band_witness :
  Forall (fun w => exists v, w.2 = VNum (PFloat (Z2F v)) /\ (0 - 3 <= v <= 10 + 3)%Z)
         (writes (trace (cyclic_data {| nodeid := 1 |} (PInt 1) (PInt 3) (PInt 0)
                                     (PInt 0) (PInt 10) 9))).
Proof.
  apply (proj1 cyclic_data_int_band); lia.
Defined.

(** ** [random_data] on any arguments *)

Lemma random_loop_S uniform data refresh min max value j n :
  loop (random_body uniform data refresh min max) (S n) (value, j) =
  match round2 (uniform j min max) with
  | Ok r =>
      (WriteValue data value :: Sleep refresh ::
         trace (loop (random_body uniform data refresh min max) n (VNum (PFloat r), S j)),
       outcome (loop (random_body uniform data refresh min max) n (VNum (PFloat r), S j)))
  | Raise e => ([WriteValue data value; Sleep refresh], Raise e)
  end.
Proof.
  cbn [loop]; unfold random_body at 1.
  destruct (round2 (uniform j min max)) as [r|e]; [|reflexivity].
  unfold lift, emit, ret, bind; cbn [app].
  destruct (loop _ n _) as [t o]; reflexivity.
Qed.

Lemma random_loop_lookup uniform data refresh min max n :
  forall value j,
    let w := written (nodeid data)
               (trace (loop (random_body uniform data refresh min max) n (value, j))) in
    (forall v, w !! 0 = Some v -> v = value) /\
    (forall i v, w !! S i = Some v ->
       exists r, round2 (uniform (j + i) min max) = Ok r /\ v = VNum (PFloat r)).
Proof.
  induction n as [|n IH]; intros value j w; subst w.
  - split; intros; discriminate.
  - rewrite random_loop_S.
    destruct (round2 (uniform j min max)) as [r|e] eqn:Er;
      cbn [trace fst written]; rewrite Z.eqb_refl.
    + destruct (IH (VNum (PFloat r)) (S j)) as [IH0 IHS].
      split; [intros v [= <-]; reflexivity|].
      intros [|i] v Hv; rewrite lookup_cons in Hv.
      * apply IH0 in Hv; subst v; exists r; rewrite Nat.add_0_r; auto.
      * apply IHS in Hv as (r' & Hr' & ->).
        exists r'; split; [|reflexivity].
        replace (j + S i) with (S j + i) by lia; assumption.
    + cbn [written]; split; [intros v [= <-]; reflexivity|].
      intros i v Hv; discriminate.
Qed.

(** X7: for every argument and whatever the random module returns,
    [random_data] writes [init] first, as it is (not rounded, not
    checked against [min] and [max]), and any value it writes at tick
    [k + 1] is the float [round(random.uniform(min, max), 2)] of the draw
    made at tick [k]. *)
Theorem random_data_lags_one_tick uniform data refresh init min max :
  (forall m, written (nodeid data)
               (trace (random_data uniform data refresh init min max (S m))) !! 0 =
             Some init) /\
  (forall m k v,
      written (nodeid data)
        (trace (random_data uniform data refresh init min max m)) !! S k = Some v ->
      exists r, round2 (uniform k min max) = Ok r /\ v = VNum (PFloat r)).
Proof.
  split.
  - intros m; unfold random_data; rewrite random_loop_S.
    destruct (round2 _); cbn [trace fst written]; rewrite Z.eqb_refl; reflexivity.
  - intros m k v Hv; unfold random_data in Hv.
    destruct (random_loop_lookup uniform data refresh min max m init 0) as [_ HS].
    apply (HS k v Hv).
Qed.

Lemma random_data_lags_one_tick_witness :
  exists r, round2 (sample_uniform 1 (PInt 0) (PInt 1)) = Ok r /\
            VNum (PFloat (literal 2199 100)) = VNum (PFloat r).
Proof.
  apply (proj2 (random_data_lags_one_tick sample_uniform {| nodeid := 1 |} (PInt 1)
                  (VStr "start") (PInt 0) (PInt 1)) 4 1).
  vm_compute; reflexivity.
Defined.

(** ** The humidity generator of [main] *)

Lemma dec2_percent_table :
  forallb (fun i => dec2_percent_ok (Z.of_nat i)) (seq 0 (Z.to_nat 10001)) = true.
Proof. vm_compute; reflexivity. Qed.

Lemma dec2_percent k : (0 <= k <= 10000)%Z -> dec2_percent_ok k = true.
Proof.
  intros Hk; pose proof dec2_percent_table as T; rewrite forallb_forall in T.
  replace k with (Z.of_nat (Z.to_nat k)) by lia.
  apply T, in_seq; lia.
Qed.

(** A finite float between two ints, the lower one not negative, is
    positive and has its hundredths between theirs. *)
Lemma hundredths_bounds (lo hi : Z) s m e :
  (0 <= lo)%Z ->
  py_le (PInt lo) (PFloat (S754_finite s m e)) = true ->
  py_le (PFloat (S754_finite s m e)) (PInt hi) = true ->
  s = false /\ (100 * lo <= hundredths m e <= 100 * hi)%Z.
Proof.
  unfold py_le, py_compare; intros Hlo H1 H2.
  destruct e as [|p|p]; cbn [compare_int_float option_map] in H1, H2.
  - destruct (Z.compare_spec lo (cond_Zopp s (Zpos m) * 2 ^ 0)) as [E|L|G];
      try discriminate;
    destruct (Z.compare_spec hi (cond_Zopp s (Zpos m) * 2 ^ 0)) as [E'|L'|G'];
      try discriminate;
    destruct s; cbn [cond_Zopp hundredths] in *; try lia; split; (reflexivity || lia).
  - pose proof (Z.pow_pos_nonneg 2 (Zpos p) ltac:(lia) ltac:(lia)) as Hp.
    destruct (Z.compare_spec lo (cond_Zopp s (Zpos m) * 2 ^ Zpos p)) as [E|L|G];
      try discriminate;
    destruct (Z.compare_spec hi (cond_Zopp s (Zpos m) * 2 ^ Zpos p)) as [E'|L'|G'];
      try discriminate;
    destruct s; cbn [cond_Zopp hundredths] in *; try nia; split; (reflexivity || nia).
  - pose proof (Pos2Z.inj_pow_pos 2 p) as Ep.
    assert (0 < Z.pow_pos 2 p)%Z as Hp by (rewrite <- Ep; lia).
    destruct (Z.compare_spec (lo * Z.pow_pos 2 p) (cond_Zopp s (Zpos m))) as [E|L|G];
      try discriminate;
    destruct (Z.compare_spec (hi * Z.pow_pos 2 p) (cond_Zopp s (Zpos m))) as [E'|L'|G'];
      try discriminate;
    destruct s; cbn [cond_Zopp hundredths] in *; try nia;
    (split; [reflexivity|]);
    apply div_half_even_bounds; rewrite Ep; nia.
Qed.

Lemma round2_percent u :
  py_le (PInt 0) (PFloat u) = true ->
  py_le (PFloat u) (PInt 100) = true ->
  exists s k, (0 <= k <= 10000)%Z /\ round2 u = Ok (dec2 s k) /\
              (k = 0%Z \/ s = false).
Proof.
  intros H1 H2; destruct u as [s|s| |s m e].
  - exists s, 0%Z; repeat split; (lia || auto).
  - destruct s; discriminate.
  - discriminate.
  - destruct (hundredths_bounds 0 100 s m e ltac:(lia) H1 H2) as [-> Hk].
    exists false, (hundredths m e); split; [lia|]; split; [|auto].
    cbn [round2].
    pose proof (dec2_percent (hundredths m e) ltac:(lia)) as Hok.
    unfold dec2_percent_ok in Hok; rewrite !andb_true_iff in Hok.
    destruct Hok as [[Hfin _] _]; unfold checked; rewrite Hfin; reflexivity.
Qed.

(** X8: against any random module that keeps [random.uniform(0, 100)]
    within [[0, 100]], the humidity task of [main] ([init=60.2],
    [min=0], [max=100]) writes 60.2 and then the rounded draws, one tick
    late; every value is a float between 0 and 100 and a decimal of two
    places read as a double; the task never raises. *)
Theorem hum_task_writes_previous_draw
    (uniform : nat -> pynum -> pynum -> spec_float) (h : handles)
    (contract : forall k,
        py_le (PInt 0) (PFloat (uniform k (PInt 0) (PInt 100))) = true /\
        py_le (PFloat (uniform k (PInt 0) (PInt 100))) (PInt 100) = true) :
  (forall m, written (nodeid (hum_data h)) (trace (hum_task uniform h m)) =
             take m (VNum (PFloat (literal 602 10)) ::
                     ((fun k => VNum (PFloat (rounded_draw uniform (PInt 0) (PInt 100) k)))
                        <$> seq 0 m)) /\
             exists st, outcome (hum_task uniform h m) = Ok st) /\
  literal 602 10 = dec2 false 6020 /\
  forall k, let v := rounded_draw uniform (PInt 0) (PInt 100) k in
    round2 (uniform k (PInt 0) (PInt 100)) = Ok v /\
    py_le (PInt 0) (PFloat v) = true /\
    py_le (PFloat v) (PInt 100) = true /\
    exists s j, v = dec2 s j.
Proof.
  assert (Hdr : forall k, exists s j, (0 <= j <= 10000)%Z /\
            round2 (uniform k (PInt 0) (PInt 100)) = Ok (dec2 s j) /\
            (j = 0%Z \/ s = false)).
  { intros k; destruct (contract k); apply round2_percent; assumption. }
  assert (Hdrawn : forall k, round2 (uniform k (PInt 0) (PInt 100)) =
                             Ok (rounded_draw uniform (PInt 0) (PInt 100) k)).
  { intros k; destruct (Hdr k) as (s & j & _ & E & _).
    unfold rounded_draw; rewrite E; reflexivity. }
  split; [|split; [vm_compute; reflexivity|]].
  - intros m; unfold hum_task, random_data.
    apply (random_written uniform (hum_data h) (PInt 10) (PInt 0) (PInt 100)
             (rounded_draw uniform (PInt 0) (PInt 100)) Hdrawn m).
  - intros k v; subst v; split; [apply Hdrawn|].
    destruct (Hdr k) as (s & j & Hj & E & Hs).
    assert (Ed : rounded_draw uniform (PInt 0) (PInt 100) k = dec2 s j)
      by (unfold rounded_draw; rewrite E; reflexivity).
    rewrite Ed.
    assert (Hrange : py_le (PInt 0) (PFloat (dec2 s j)) = true /\
                     py_le (PFloat (dec2 s j)) (PInt 100) = true).
    { destruct Hs as [-> | ->].
      - destruct s; split; reflexivity.
      - pose proof (dec2_percent j Hj) as Hok; unfold dec2_percent_ok in Hok.
        rewrite !andb_true_iff in Hok; destruct Hok as [[_ Hlo] Hhi]; auto. }
    destruct Hrange; repeat split; try assumption; eauto.
Qed.

Lemma hum_task_writes_previous_draw_witness :
  written (nodeid (hum_data sample_handles))
    (trace (hum_task (fun k a b => literal 4267 100) sample_handles 3)) =
  [VNum (PFloat (literal 602 10)); VNum (PFloat (literal 4267 100));
   VNum (PFloat (literal 4267 100))].
Proof.
  pose proof (proj1 (proj1 (hum_task_writes_previous_draw
                 (fun k a b => literal 4267 100) sample_handles
                 (fun k => conj eq_refl eq_refl)) 3)) as H.
  rewrite H; vm_compute; reflexivity.
Defined.

(** ** The mirror handler over a stream of notifications *)

Lemma logged_app t1 t2 : logged (t1 ++ t2) = logged t1 ++ logged t2.
Proof. apply omap_app. Qed.

Lemma datachange_notification_outcome self node val :
  outcome (datachange_notification self node val) = Ok tt.
Proof.
  unfold datachange_notification.
  destruct (node_eqb _ _), (is_bool val); reflexivity.
Qed.

Lemma notify_all_cons self node val rest :
  trace (notify_all self ((node, val) :: rest)) =
    trace (datachange_notification self node val) ++ trace (notify_all self rest) /\
  outcome (notify_all self ((node, val) :: rest)) = outcome (notify_all self rest).
Proof.
  cbn [notify_all]; rewrite trace_bind, outcome_bind.
  rewrite datachange_notification_outcome; split; reflexivity.
Qed.

(** X9: over any stream of notifications, the mirror handler writes to
    the copy exactly the boolean values notified for the original, in
    their order, and nothing else anywhere; it logs one error for each
    value notified for the original that is not a boolean; it never
    raises, so one bad value does not stop the mirroring of the next. *)
Theorem mirror_stream (self : MirrorHandler) (notifications : list (Node * pyval)) :
  writes (trace (notify_all self notifications)) =
    omap (fun nv => if node_eqb (orig_data self) nv.1 && is_bool nv.2
                    then Some (nodeid (copy_data self), nv.2) else None) notifications /\
  logged (trace (notify_all self notifications)) =
    omap (fun nv => if node_eqb (orig_data self) nv.1 && negb (is_bool nv.2)
                    then Some "Node value is not boolean" else None) notifications /\
  Forall (fun w => is_bool w.2 = true) (writes (trace (notify_all self notifications))) /\
  outcome (notify_all self notifications) = Ok tt.
Proof.
  induction notifications as [|[node val] rest (IHw & IHl & IHb & IHo)].
  - repeat split; constructor.
  - destruct (notify_all_cons self node val rest) as [Et Eo].
    rewrite Et, Eo, writes_app, logged_app.
    cbn [omap list_omap fst snd].
    unfold datachange_notification.
    destruct (node_eqb (orig_data self) node), (is_bool val) eqn:Eb;
      cbn [andb negb trace fst emit ret writes logged omap list_omap app];
      rewrite <- ?IHw, <- ?IHl;
      repeat split; try assumption.
    constructor; assumption.
Qed.

(** ** The GPS feed over any track *)

Lemma due_writes_fields float_repr self position :
  due_writes float_repr self position =
  match truthy_field "latitude" position with
  | Some lat => [WriteValue (lat_data self) lat] | None => [] end ++
  match truthy_field "longitude" position with
  | Some long => [WriteValue (long_data self) long] | None => [] end ++
  match combined_field float_repr position with
  | Some s => [WriteValue (lat_long_data self) s] | None => [] end.
Proof.
  unfold due_writes, truthy_field, combined_field; rewrite !truthy_dict_get.
  destruct (present_truthy position "latitude"),
           (present_truthy position "longitude"); reflexivity.
Qed.

Lemma tcx_update_start_cons float_repr accepts self position rest :
  tcx_update_start float_repr accepts self (position :: rest) =
  bind (on_update float_repr accepts self position)
       (fun _ => tcx_update_start float_repr accepts self rest).
Proof. reflexivity. Qed.

(** X10: for every track, when the three variables of the handler are
    different nodes and the server accepts every write that is due: the
    latitude variable receives exactly the truthy latitudes of the
    records, in track order, the longitude variable the truthy
    longitudes, and the combined variable one string for each record
    where both are truthy; records with a missing, [None] or zero field
    are passed over, and the replay ends normally. *)
Theorem tcx_update_any_track float_repr accepts (self : TCXUpdateHandler)
    (track : list (gmap string pyval))
    (Haccepted : Forall (fun position =>
                           all_accepted accepts (due_writes float_repr self position)) track)
    (Hlat_long : nodeid (lat_data self) <> nodeid (long_data self))
    (Hlat_both : nodeid (lat_data self) <> nodeid (lat_long_data self))
    (Hlong_both : nodeid (long_data self) <> nodeid (lat_long_data self)) :
  let run := tcx_update_start float_repr accepts self track in
  written (nodeid (lat_data self)) (trace run) = omap (truthy_field "latitude") track /\
  written (nodeid (long_data self)) (trace run) = omap (truthy_field "longitude") track /\
  written (nodeid (lat_long_data self)) (trace run) = omap (combined_field float_repr) track /\
  outcome run = Ok tt.
Proof.
  induction track as [|position rest IH]; cbv zeta in *.
  - repeat split.
  - apply Forall_cons in Haccepted as [Hhere Hrest].
    destruct (IH Hrest) as (IHlat & IHlong & IHboth & IHo).
    rewrite tcx_update_start_cons, trace_bind, outcome_bind.
    rewrite (on_update_accepted _ _ _ _ Hhere); cbn [trace outcome fst snd].
    rewrite !written_app, IHlat, IHlong, IHboth, due_writes_fields.
    cbn [omap list_omap].
    destruct (truthy_field "latitude" position),
             (truthy_field "longitude" position),
             (combined_field float_repr position);
      cbn [app];
      rewrite ?written_cons_same, ?written_cons_other by congruence;
      rewrite ?written_cons_same, ?written_cons_other by congruence;
      rewrite ?written_cons_same, ?written_cons_other by congruence;
      repeat split; assumption.
Qed.

Lemma tcx_update_any_track_witness :
  let run := tcx_update_start (fun _ => "?") sample_accepts sample_tcx_handler sample_track in
  written 1 (trace run) = omap (truthy_field "latitude") sample_track /\
  written 2 (trace run) = omap (truthy_field "longitude") sample_track /\
  written 3 (trace run) = omap (combined_field (fun _ => "?")) sample_track /\
  outcome run = Ok tt.
Proof.
  apply (tcx_update_any_track (fun _ => "?") sample_accepts sample_tcx_handler sample_track);
    try discriminate.
  repeat constructor.
Defined.

(** ** One writer for each variable of [main] *)

Lemma notify_all_frame self notifications :
  writes_only_to (nodeid (copy_data self)) (trace (notify_all self notifications)).
Proof.
  induction notifications as [|[node val] rest IH]; [constructor|].
  destruct (notify_all_cons self node val rest) as [-> _].
  apply Forall_app; split; [|assumption].
  unfold datachange_notification.
  destruct (node_eqb _ _), (is_bool val); repeat constructor.
Qed.

Lemma tcx_update_start_frame float_repr accepts self track :
  writes_within [nodeid (lat_data self); nodeid (long_data self);
                 nodeid (lat_long_data self)]
    (trace (tcx_update_start float_repr accepts self track)).
Proof.
  induction track as [|position rest IH]; [constructor|].
  rewrite tcx_update_start_cons, trace_bind.
  apply Forall_app; split;
    [|destruct (outcome _); [assumption | constructor]].
  destruct (on_update_prefix float_repr accepts self position) as [k Hk].
  assert (Hdue : writes_within [nodeid (lat_data self); nodeid (long_data self);
                                nodeid (lat_long_data self)]
                   (due_writes float_repr self position)).
  { rewrite due_writes_fields.
    destruct (truthy_field "latitude" position),
             (truthy_field "longitude" position),
             (combined_field float_repr position);
      repeat constructor; cbn [write_target]; set_solver. }
  unfold writes_within in Hdue; rewrite Hk in Hdue.
  apply Forall_app in Hdue as [Hdue _]; exact Hdue.
Qed.

(** X11: [main] gives every component variables of its own.  The eleven
    variables it creates are different nodes; each of the six generator
    tasks writes to its one variable only, the mirror handler to the
    mirror copy only, and the feed handler to the three GPS variables
    only.  So no variable has two writers, and nothing in [main] writes
    to the mirror original. *)
Theorem main_single_writer (idx : Z) (s : server)
    (uniform : nat -> pynum -> pynum -> spec_float) :
  let h := (main_setup idx s).1 in
  NoDup (handle_ids h) /\
  (forall n, writes_only_to (nodeid (bool_data h)) (trace (bool_task h n))) /\
  (forall n, writes_only_to (nodeid (pos_data h)) (trace (pos_task h n))) /\
  (forall n, writes_only_to (nodeid (neg_data h)) (trace (neg_task h n))) /\
  (forall n, writes_only_to (nodeid (temp_data h)) (trace (temp_task uniform h n))) /\
  (forall n, writes_only_to (nodeid (hum_data h)) (trace (hum_task uniform h n))) /\
  (forall n, writes_only_to (nodeid (cyc_data h)) (trace (cyclic_task h n))) /\
  (forall notifications,
      writes_only_to (nodeid (mirror_copy_data h))
        (trace (notify_all (mirror_handler h) notifications))) /\
  (forall float_repr accepts track,
      writes_within [nodeid (latitude_data h); nodeid (longitude_data h);
                     nodeid (latitude_longitude_data h)]
        (trace (tcx_update_start float_repr accepts (tcx_update_handler h) track))).
Proof.
  intros h; split; [|repeat split; intros].
  - subst h; unfold handle_ids; cbn.
    repeat (apply NoDup_cons; split;
            [rewrite ?elem_of_cons, elem_of_nil; lia|]).
    apply NoDup_nil; exact I.
  - unfold bool_task; apply toggle_data_frame.
  - unfold pos_task; apply periodic_data_frame.
  - unfold neg_task; apply periodic_data_frame.
  - unfold temp_task; apply random_data_frame.
  - unfold hum_task; apply random_data_frame.
  - unfold cyclic_task; apply cyclic_data_frame.
  - apply (notify_all_frame (mirror_handler h)).
  - apply (tcx_update_start_frame float_repr accepts (tcx_update_handler h)).
Qed.

(** ** Creation values, declared types and what the tasks write *)

Ltac resolve_ids :=
  repeat (rewrite Z.eqb_refl ||
          match goal with
          | |- context [(?a =? ?b)%Z] =>
              destruct (Z.eqb_spec a b) as [?|_]; [exfalso; lia|]
          end).

Lemma random_loop_floats uniform data refresh min max n value j :
  is_float_val value = true ->
  Forall (fun v => python_type v = Some Double)
    (written (nodeid data)
       (trace (loop (random_body uniform data refresh min max) n (value, j)))).
Proof.
  revert value j; induction n as [|n IH]; intros value j Hv; [constructor|].
  rewrite random_loop_S.
  assert (Hvalue : python_type value = Some Double)
    by (destruct value as [| |[|]|]; try discriminate; reflexivity).
  destruct (round2 (uniform j min max)) as [r|e];
    cbn [trace fst written]; rewrite Z.eqb_refl.
  - constructor; [assumption | apply IH; reflexivity].
  - repeat constructor; assumption.
Qed.

(** X12: on a fresh server, each generator task of [main] starts by
    writing the very value its variable was created with, so starting
    the tasks changes no value.  The values the toggle, the two random
    tasks and the triangular wave go on to write have the Python type of
    the declared data type (bool for Boolean, float for Double); the two
    ramps, whose variables are declared Double, write Python ints
    throughout. *)
Theorem main_tasks_and_declared_types (idx first : Z)
    (uniform : nat -> pynum -> pynum -> spec_float) :
  let h := (main_setup idx (fresh_server first)).1 in
  let log := requests (main_setup idx (fresh_server first)).2 in
  (created_with (bool_data h) log = [(VBool true, Boolean)] /\
   nth_write (nodeid (bool_data h)) (bool_task h) 0 = Some (VBool true) /\
   forall m, Forall (fun v => python_type v = Some Boolean)
               (written (nodeid (bool_data h)) (trace (bool_task h m)))) /\
  (created_with (pos_data h) log = [(VNum (PInt 0), Double)] /\
   nth_write (nodeid (pos_data h)) (pos_task h) 0 = Some (VNum (PInt 0)) /\
   forall m, Forall (fun v => is_int_val v = true)
               (written (nodeid (pos_data h)) (trace (pos_task h m)))) /\
  (created_with (neg_data h) log = [(VNum (PInt 0), Double)] /\
   nth_write (nodeid (neg_data h)) (neg_task h) 0 = Some (VNum (PInt 0)) /\
   forall m, Forall (fun v => is_int_val v = true)
               (written (nodeid (neg_data h)) (trace (neg_task h m)))) /\
  (created_with (temp_data h) log = [(VNum (PFloat (literal 185 10)), Double)] /\
   nth_write (nodeid (temp_data h)) (temp_task uniform h) 0 =
     Some (VNum (PFloat (literal 185 10))) /\
   forall m, Forall (fun v => python_type v = Some Double)
               (written (nodeid (temp_data h)) (trace (temp_task uniform h m)))) /\
  (created_with (hum_data h) log = [(VNum (PFloat (literal 602 10)), Double)] /\
   nth_write (nodeid (hum_data h)) (hum_task uniform h) 0 =
     Some (VNum (PFloat (literal 602 10))) /\
   forall m, Forall (fun v => python_type v = Some Double)
               (written (nodeid (hum_data h)) (trace (hum_task uniform h m)))) /\
  (created_with (cyc_data h) log = [(VNum (PFloat (S754_zero false)), Double)] /\
   nth_write (nodeid (cyc_data h)) (cyclic_task h) 0 =
     Some (VNum (PFloat (S754_zero false))) /\
   forall m, Forall (fun v => python_type v = Some Double)
               (written (nodeid (cyc_data h)) (trace (cyclic_task h m)))).
Proof.
  intros h log.
  assert (Hcreated :
    created_with (bool_data h) log = [(VBool true, Boolean)] /\
    created_with (pos_data h) log = [(VNum (PInt 0), Double)] /\
    created_with (neg_data h) log = [(VNum (PInt 0), Double)] /\
    created_with (temp_data h) log = [(VNum (PFloat (literal 185 10)), Double)] /\
    created_with (hum_data h) log = [(VNum (PFloat (literal 602 10)), Double)] /\
    created_with (cyc_data h) log = [(VNum (PFloat (S754_zero false)), Double)]).
  { subst h log; cbv -[Z.add Z.eqb literal].
    repeat split; resolve_ids; reflexivity. }
  destruct Hcreated as (C1 & C2 & C3 & C4 & C5 & C6).
  split; [|split; [|split; [|split; [|split]]]]; (split; [assumption|]); split.
  - unfold nth_write, bool_task; rewrite toggle_written; reflexivity.
  - intros m; unfold bool_task; rewrite toggle_written.
    apply Forall_fmap, Forall_forall; intros; reflexivity.
  - unfold nth_write, pos_task; rewrite periodic_written_int; reflexivity.
  - intros m; unfold pos_task; rewrite periodic_written_int.
    apply Forall_fmap, Forall_forall; intros; reflexivity.
  - unfold nth_write, neg_task; rewrite periodic_written_int; reflexivity.
  - intros m; unfold neg_task; rewrite periodic_written_int.
    apply Forall_fmap, Forall_forall; intros; reflexivity.
  - unfold nth_write, temp_task, random_data; rewrite random_loop_S.
    destruct (round2 _); cbn [trace fst written]; rewrite Z.eqb_refl; reflexivity.
  - intros m; unfold temp_task, random_data; apply random_loop_floats; reflexivity.
  - unfold nth_write, hum_task, random_data; rewrite random_loop_S.
    destruct (round2 _); cbn [trace fst written]; rewrite Z.eqb_refl; reflexivity.
  - intros m; unfold hum_task, random_data; apply random_loop_floats; reflexivity.
  - unfold nth_write, cyclic_task.
    destruct (wave_written (cyc_data h) 1) as [Hw _].
    change (PFloat (literal 5 10)) with wave_step.
    change (PInt (-100)) with wave_min.
    change (PInt 100) with wave_max.
    rewrite Hw; vm_compute; reflexivity.
  - intros m; unfold cyclic_task.
    destruct (wave_written (cyc_data h) m) as [Hw _].
    change (PFloat (literal 5 10)) with wave_step.
    change (PInt (-100)) with wave_min.
    change (PInt 100) with wave_max.
    rewrite Hw; apply Forall_fmap, Forall_forall; intros k _; cbn.
    destruct (orbit_step (k mod wave_period) (mod_period_lt _)) as (d & _ & inc & _ & Ei & _).
    unfold wave; rewrite Ei; reflexivity.
Qed.

(** ** [main] on a server that is already in use *)

Lemma main_setup_requests idx s :
  exists new,
    requests (main_setup idx s).2 = requests s ++ new /\
    length new = 12 /\
    length (creations new) = 11 /\
    historizations new = [(cyc_data (main_setup idx s).1, None, 10000%Z)] /\
    new !! 5 = Some (AddVariable idx "CyclicData" (VNum (PFloat (S754_zero false))) Double
                       (cyc_data (main_setup idx s).1)) /\
    new !! 11 = Some (HistorizeNodeDataChange (cyc_data (main_setup idx s).1) None 10000).
Proof.
  destruct s as [next reqs].
  eexists; split.
  - cbv -[Z.add literal app]; rewrite <- !app_assoc; reflexivity.
  - repeat split; reflexivity.
Qed.

(** X13: whatever requests the server has already received, the
    set-up of [main] leaves them in place and appends twelve of its own:
    eleven creations and then the one historization, which comes after
    the creation of the node it names.  Every node it creates gets an id
    the server had not handed out before, and the server's next id
    advances by eleven. *)
Theorem main_setup_appends (idx : Z) (s : server) :
  let h := (main_setup idx s).1 in
  let s' := (main_setup idx s).2 in
  take (length (requests s)) (requests s') = requests s /\
  length (requests s') = length (requests s) + 12 /\
  length (creations (requests s')) = length (creations (requests s)) + 11 /\
  historizations (requests s') =
    historizations (requests s) ++ [(cyc_data h, None, 10000%Z)] /\
  requests s' !! (length (requests s) + 5) =
    Some (AddVariable idx "CyclicData" (VNum (PFloat (S754_zero false))) Double (cyc_data h)) /\
  requests s' !! (length (requests s) + 11) =
    Some (HistorizeNodeDataChange (cyc_data h) None 10000) /\
  next_id s' = (next_id s + 11)%Z /\
  Forall (fun id => (next_id s <= id < next_id s')%Z) (handle_ids h).
Proof.
  intros h s'; subst h s'.
  destruct (main_setup_requests idx s) as (new & Ereq & Hlen & Hcre & Hhist & H5 & H11).
  rewrite Ereq.
  split; [apply take_app_length|].
  split; [rewrite length_app; lia|].
  split; [unfold creations in *; rewrite omap_app, length_app; lia|].
  split; [unfold historizations in *; rewrite omap_app, Hhist; reflexivity|].
  split; [rewrite lookup_app_r, Nat.add_comm, Nat.add_sub by lia; exact H5|].
  split; [rewrite lookup_app_r, Nat.add_comm, Nat.add_sub by lia; exact H11|].
  destruct s as [next reqs]; split.
  - cbn; lia.
  - unfold handle_ids; cbn; repeat (constructor; [lia|]); constructor.
Qed.
